(** * CrewSync — the Recommendations page and its API client

    A shallow embedding of [frontend/src/pages/Recommendations.jsx] and of
    the [api] object that follows it (the axios wrapper of
    [services/api]).

    The page is a React function component.  Three facts about React and
    JavaScript shape the model:

    - every render binds the seven [useState] slots to constants; a handler
      created by that render reads those constants for as long as it runs,
      also after an [await] and inside a [setTimeout] callback.  Handlers
      therefore take the render's snapshot ([snap : State]) as an explicit
      argument and read slots from it, while the setters write to the
      component's live state in the [World];
    - an [async] function runs synchronously up to its first [await]; the
      rest is a continuation resumed when the awaited promise settles.
      Continuations are defunctionalised ([Kont]) and carry the variables
      their closure captured;
    - a button with [disabled] set does not dispatch [onClick], and an
      element that is not rendered dispatches nothing. *)

From stdpp Require Import base decidable option numbers list strings gmap.

Local Open Scope string_scope.
Local Open Scope list_scope.

(** ** Data model *)

(** The fields of a flight the page reads. *)
Record Flight := mkFlight {
  flightNumber : string;
  route : string;
  aircraft : string;
  departure : string;
  crewRequired : Z;
  crewAssigned : Z
}.

(** One entry of a recommendation response.  [compositeScore] is only
    displayed; it is kept as an integer here. *)
Record Recommendation := mkRecommendation {
  emp_id : string;
  name : string;
  designation : string;
  baseLocation : string;
  compositeScore : Z;
  rank : Z
}.

(** The object passed to [setAssignSuccess]. *)
Module Notice.
Record t := mk { crewName : string; flightNumber : string }.
End Notice.

(** The seven [useState] slots, with the names of the source. *)
Record State := mkState {
  flights : list Flight;
  selectedFlight : string;
  recommendations : list Recommendation;
  loading : bool;
  assignModal : option Recommendation;
  assigning : bool;
  assignSuccess : option Notice.t
}.

(** The arguments of the [useState] calls. *)
Definition initialState : State :=
  {| flights := []; selectedFlight := ""; recommendations := [];
     loading := false; assignModal := None; assigning := false;
     assignSuccess := None |}.

(** ** HTTP: requests, responses, failures *)

Inductive Method := GET | POST.

(** What axios is asked to send: [axios.get(url)] or
    [axios.post(url, data)], the body being a flat JSON object given as its
    key/value pairs in source order. *)
Record Request := mkRequest {
  method : Method;
  url : string;
  body : option (list (string * string))
}.

(** A fulfilled axios promise yields a response whose payload is [data]. *)
Record Response (A : Type) := mkResponse { data : A }.
Arguments mkResponse {A} _.
Arguments data {A} _.

(** The body of a failed call, when the server sent one: an object whose
    [error] field may be missing. *)
Record ErrorBody := mkErrorBody { error : option string }.

(** A rejected axios promise: [response] is undefined on transport
    failures, and its [data] may be missing as well. *)
Record AxiosError := mkAxiosError {
  response : option (Response (option ErrorBody))
}.

Inductive Result (A : Type) :=
| Fulfilled (r : Response A)
| Rejected (e : AxiosError).
Arguments Fulfilled {A} _.
Arguments Rejected {A} _.

(** ** The API client

    The network is the log of the requests handed to axios, oldest first.
    A call appends its request and returns the promise of that request,
    identified by the request's position in the log. *)

Abbreviation Net := (list Request).
Abbreviation Promise := nat.

Definition axios_get (u : string) (net : Net) : Net * Promise :=
  (net ++ [mkRequest GET u None], length net).

Definition axios_post (u : string) (d : list (string * string)) (net : Net)
  : Net * Promise :=
  (net ++ [mkRequest POST u (Some d)], length net).

Definition API_BASE : string := "http://localhost:5000/api".

Module api.
Definition getDashboardStats : Net -> Net * Promise :=
  axios_get (API_BASE +:+ "/dashboard/stats").
Definition getAllFlights : Net -> Net * Promise :=
  axios_get (API_BASE +:+ "/flights").
Definition getFlightById (flightNumber : string) : Net -> Net * Promise :=
  axios_get (API_BASE +:+ "/flights/" +:+ flightNumber).
Definition getAllCrew : Net -> Net * Promise :=
  axios_get (API_BASE +:+ "/crew").
Definition getCrewById (empId : string) : Net -> Net * Promise :=
  axios_get (API_BASE +:+ "/crew/" +:+ empId).
Definition getRecommendations (flightNumber : string) : Net -> Net * Promise :=
  axios_get (API_BASE +:+ "/recommendations/" +:+ flightNumber).
Definition assignCrewToFlight (empId flightNumber : string)
  : Net -> Net * Promise :=
  axios_post (API_BASE +:+ "/crew/" +:+ empId +:+ "/assign")
             [("flight_number", flightNumber)].
Definition healthCheck : Net -> Net * Promise :=
  axios_get (API_BASE +:+ "/health").
End api.

(** The operations of the [api] object as data, to quantify over them. *)
Inductive ApiOp :=
| GetDashboardStats
| GetAllFlights
| GetFlightById (flightNumber : string)
| GetAllCrew
| GetCrewById (empId : string)
| GetRecommendations (flightNumber : string)
| AssignCrewToFlight (empId flightNumber : string)
| HealthCheck.

Definition call (op : ApiOp) : Net -> Net * Promise :=
  match op with
  | GetDashboardStats => api.getDashboardStats
  | GetAllFlights => api.getAllFlights
  | GetFlightById f => api.getFlightById f
  | GetAllCrew => api.getAllCrew
  | GetCrewById e => api.getCrewById e
  | GetRecommendations f => api.getRecommendations f
  | AssignCrewToFlight e f => api.assignCrewToFlight e f
  | HealthCheck => api.healthCheck
  end.

(** *** The capability table of the specification

    Written from the table of section 4.1, against the same base address,
    to be compared with [call]. *)
Inductive Capability :=
| ListFlights
| GetFlight (flightNumber : string)
| ListCrew
| GetCrew (empId : string)
| GetRecommendationsFor (flightNumber : string)
| AssignCrew (empId flight_number : string)
| HealthProbe.

Definition table_request (c : Capability) : Request :=
  match c with
  | ListFlights => mkRequest GET (API_BASE +:+ "/flights") None
  | GetFlight f => mkRequest GET (API_BASE +:+ "/flights/" +:+ f) None
  | ListCrew => mkRequest GET (API_BASE +:+ "/crew") None
  | GetCrew e => mkRequest GET (API_BASE +:+ "/crew/" +:+ e) None
  | GetRecommendationsFor f =>
      mkRequest GET (API_BASE +:+ "/recommendations/" +:+ f) None
  | AssignCrew e f =>
      mkRequest POST (API_BASE +:+ "/crew/" +:+ e +:+ "/assign")
                (Some [("flight_number", f)])
  | HealthProbe => mkRequest GET (API_BASE +:+ "/health") None
  end.

(** The operation of the client that serves a capability. *)
Definition serves (c : Capability) : ApiOp :=
  match c with
  | ListFlights => GetAllFlights
  | GetFlight f => GetFlightById f
  | ListCrew => GetAllCrew
  | GetCrew e => GetCrewById e
  | GetRecommendationsFor f => GetRecommendations f
  | AssignCrew e f => AssignCrewToFlight e f
  | HealthProbe => HealthCheck
  end.

(** ** The component and its environment *)

(** Suspended [async] functions.  Each constructor is the rest of one
    function after its [await], with the render constants that rest
    reads: [confirmAssign] goes on reading [assignModal] (known to be set,
    by its guard) and [selectedFlight]. *)
Inductive Kont :=
| K_loadFlights
| K_loadRecommendations
| K_confirmAssign (modal : Recommendation) (flight : string).

(** The arrow function given to [setTimeout] in [confirmAssign]; it closes
    over the [selectedFlight] constant of the render that created it. *)
Inductive Callback :=
| CB_reload (flight : string).

Record Timer := mkTimer { delay : nat; callback : Callback }.

(** The live component state together with everything outside it that the
    handlers act on. *)
Record World := mkWorld {
  state : State;
  net : Net;                      (* requests handed to axios *)
  awaiting : gmap Promise Kont;   (* who waits for which promise *)
  timers : list Timer;            (* scheduled and not yet fired *)
  console : list string;          (* console.log / console.error *)
  alerts : list string            (* texts shown by alert() *)
}.

Definition initialWorld : World :=
  mkWorld initialState [] ∅ [] [] [].

Notation "w |> f" := (f w) (at level 45, left associativity, only parsing).

Definition with_state (f : State -> State) (w : World) : World :=
  mkWorld (f (state w)) (net w) (awaiting w) (timers w) (console w) (alerts w).

(** *** The setters returned by [useState] *)

Definition setFlights (v : list Flight) : World -> World :=
  with_state (fun s => mkState v (selectedFlight s) (recommendations s)
    (loading s) (assignModal s) (assigning s) (assignSuccess s)).
Definition setSelectedFlight (v : string) : World -> World :=
  with_state (fun s => mkState (flights s) v (recommendations s)
    (loading s) (assignModal s) (assigning s) (assignSuccess s)).
Definition setRecommendations (v : list Recommendation) : World -> World :=
  with_state (fun s => mkState (flights s) (selectedFlight s) v
    (loading s) (assignModal s) (assigning s) (assignSuccess s)).
Definition setLoading (v : bool) : World -> World :=
  with_state (fun s => mkState (flights s) (selectedFlight s)
    (recommendations s) v (assignModal s) (assigning s) (assignSuccess s)).
Definition setAssignModal (v : option Recommendation) : World -> World :=
  with_state (fun s => mkState (flights s) (selectedFlight s)
    (recommendations s) (loading s) v (assigning s) (assignSuccess s)).
Definition setAssigning (v : bool) : World -> World :=
  with_state (fun s => mkState (flights s) (selectedFlight s)
    (recommendations s) (loading s) (assignModal s) v (assignSuccess s)).
Definition setAssignSuccess (v : option Notice.t) : World -> World :=
  with_state (fun s => mkState (flights s) (selectedFlight s)
    (recommendations s) (loading s) (assignModal s) (assigning s) v).

(** *** Browser and axios primitives *)

Definition console_log (msg : string) (w : World) : World :=
  mkWorld (state w) (net w) (awaiting w) (timers w) (console w ++ [msg])
          (alerts w).
Definition console_error := console_log.

Definition alert (msg : string) (w : World) : World :=
  mkWorld (state w) (net w) (awaiting w) (timers w) (console w)
          (alerts w ++ [msg]).

Definition setTimeout (cb : Callback) (ms : nat) (w : World) : World :=
  mkWorld (state w) (net w) (awaiting w) (timers w ++ [mkTimer ms cb])
          (console w) (alerts w).

(** [await op] with continuation [k]: the request goes out now, [k] is
    parked under the promise of that request. *)
Definition await (op : Net -> Net * Promise) (k : Kont) (w : World) : World :=
  let '(n, p) := op (net w) in
  mkWorld (state w) n (<[p := k]> (awaiting w)) (timers w) (console w)
          (alerts w).

(** JavaScript truthiness of a string: only the empty string is falsy. *)
Definition truthy (s : string) : bool :=
  match s with EmptyString => false | _ => true end.

(** *** The functions of the component *)

Definition loadFlights (w : World) : World :=
  w |> await api.getAllFlights K_loadFlights.

Definition loadFlights_resume (r : Result (list Flight)) (w : World) : World :=
  match r with
  | Fulfilled response => w |> setFlights (data response)
  | Rejected _ => w |> console_error "Error loading flights:"
  end.

Definition loadRecommendations (flightNumber : string) (w : World) : World :=
  if negb (truthy flightNumber) then w
  else w |> setLoading true
         |> await (api.getRecommendations flightNumber) K_loadRecommendations.

Definition loadRecommendations_resume
    (r : Result (list Recommendation)) (w : World) : World :=
  match r with
  | Fulfilled response => w |> setRecommendations (data response)
  | Rejected _ => w |> console_error "Error loading recommendations:"
                    |> setRecommendations []
  end |> setLoading false.

(** The second [useEffect]: [searchParams.get('flight')] is a string or
    null. *)
Definition effect_searchParams (flightParam : option string) (w : World)
  : World :=
  match flightParam with
  | Some f =>
      if truthy f then w |> setSelectedFlight f |> loadRecommendations f
      else w
  | None => w
  end.

Definition handleFlightChange (value : string) (w : World) : World :=
  let flight := value in
  w |> setSelectedFlight flight |> loadRecommendations flight.

Definition handleAssign (rec : Recommendation) (w : World) : World :=
  w |> setAssignModal (Some rec).

(** [error.response?.data?.error]: undefined ([None]) as soon as one link
    of the chain is missing. *)
Definition server_error (e : AxiosError) : option string :=
  resp ← response e; body ← data resp; error body.

(** [error.response?.data?.error || 'Failed to assign crew'] *)
Definition errorMsg (e : AxiosError) : string :=
  match server_error e with
  | Some s => if truthy s then s else "Failed to assign crew"
  | None => "Failed to assign crew"
  end.

Definition confirmAssign (snap : State) (w : World) : World :=
  match assignModal snap with
  | None => w
  | Some modal =>
      w |> setAssigning true
        |> await (api.assignCrewToFlight (emp_id modal) (selectedFlight snap))
                 (K_confirmAssign modal (selectedFlight snap))
  end.

Definition confirmAssign_resume (modal : Recommendation) (flight : string)
    (r : Result string) (w : World) : World :=
  match r with
  | Fulfilled _ =>
      w |> console_log "Assignment successful:"
        |> setAssignSuccess (Some (Notice.mk (name modal) flight))
        |> setAssignModal None
        |> setTimeout (CB_reload flight) 3000
  | Rejected e =>
      w |> console_error "Assignment failed:"
        |> alert ("Error: " +:+ errorMsg e)
  end |> setAssigning false.

Definition run_callback (cb : Callback) (w : World) : World :=
  match cb with
  | CB_reload flight =>
      w |> loadRecommendations flight |> setAssignSuccess None
  end.

(** *** What a render puts on the page

    Only what decides which events the page can dispatch is kept: the
    values of the select's options, the recommendation cards, the success
    notice and the two buttons of the confirmation modal.  The modal reads
    [selectedFlightData.flightNumber] without a guard: when no flight
    matches [selectedFlight], that read throws and the render fails
    ([None]). *)

Definition selectedFlightData (s : State) : option Flight :=
  List.find (fun f => String.eqb (flightNumber f) (selectedFlight s))
            (flights s).

Record ModalView := mkModalView {
  cancel_disabled : bool;
  confirm_disabled : bool
}.

Record View := mkView {
  options : list string;
  cards : list Recommendation;
  notice : option string;
  modal : option ModalView
}.

Definition render (s : State) : option View :=
  let view m :=
    mkView ("" :: map flightNumber (flights s))
           (if negb (loading s) then recommendations s else [])
           (n ← assignSuccess s;
            Some (Notice.crewName n +:+ " assigned to " +:+ Notice.flightNumber n))
           m in
  match assignModal s with
  | None => Some (view None)
  | Some _ =>
      match selectedFlightData s with
      | None => None
      | Some _ => Some (view (Some (mkModalView (assigning s) (assigning s))))
      end
  end.

(** *** Events and the step function

    User events are dispatched through the latest render; the card
    component lives in another file, so [AssignClick] only requires that
    cards are on the page.  A settled promise resumes whoever awaits it,
    and a timer may fire whenever it is scheduled (time is not measured,
    the delay is only recorded). *)

Inductive Event :=
| Mounted
| SearchParams (flight : option string)
| SelectChange (value : string)
| AssignClick (rec : Recommendation)
| CancelClick
| ConfirmClick
| FlightsSettled (p : Promise) (r : Result (list Flight))
| RecommendationsSettled (p : Promise) (r : Result (list Recommendation))
| AssignSettled (p : Promise) (r : Result string)
| TimerFired (i : nat).

Definition settle (p : Promise) (w : World) : World :=
  mkWorld (state w) (net w) (delete p (awaiting w)) (timers w) (console w)
          (alerts w).

Definition clearTimer (i : nat) (w : World) : World :=
  mkWorld (state w) (net w) (awaiting w) (delete i (timers w)) (console w)
          (alerts w).

Definition step (e : Event) (w : World) : World :=
  match e with
  | Mounted => w |> loadFlights
  | SearchParams flight => w |> effect_searchParams flight
  | SelectChange value =>
      match render (state w) with
      | Some v =>
          if decide (value ∈ options v) then w |> handleFlightChange value
          else w
      | None => w
      end
  | AssignClick rec =>
      match cards <$> render (state w) with
      | Some (_ :: _) => w |> handleAssign rec
      | _ => w
      end
  | CancelClick =>
      match render (state w) ≫= modal with
      | Some m =>
          if cancel_disabled m then w else w |> setAssignModal None
      | None => w
      end
  | ConfirmClick =>
      match render (state w) ≫= modal with
      | Some m =>
          if confirm_disabled m then w else w |> confirmAssign (state w)
      | None => w
      end
  | FlightsSettled p r =>
      match awaiting w !! p with
      | Some K_loadFlights => w |> settle p |> loadFlights_resume r
      | _ => w
      end
  | RecommendationsSettled p r =>
      match awaiting w !! p with
      | Some K_loadRecommendations =>
          w |> settle p |> loadRecommendations_resume r
      | _ => w
      end
  | AssignSettled p r =>
      match awaiting w !! p with
      | Some (K_confirmAssign modal flight) =>
          w |> settle p |> confirmAssign_resume modal flight r
      | _ => w
      end
  | TimerFired i =>
      match timers w !! i with
      | Some t => w |> clearTimer i |> run_callback (callback t)
      | None => w
      end
  end.

(** Running a sequence of events, first event first. *)
Definition run (es : list Event) (w : World) : World :=
  foldl (fun w e => step e w) w es.

(** ** Notions used to state the properties *)

(** The request of [api.getRecommendations]. *)
Definition recommendations_request (flightNumber : string) : Request :=
  mkRequest GET (API_BASE +:+ "/recommendations/" +:+ flightNumber) None.

(** The request of [api.assignCrewToFlight]. *)
Definition assign_request (empId flight : string) : Request :=
  mkRequest POST (API_BASE +:+ "/crew/" +:+ empId +:+ "/assign")
            (Some [("flight_number", flight)]).

(** One complete load: the call and the settlement of its promise with
    the list [L]. *)
Definition reload (flightNumber : string) (L : list Recommendation)
    (w : World) : World :=
  step (RecommendationsSettled (length (net w)) (Fulfilled (mkResponse L)))
       (loadRecommendations flightNumber w).

(** Every parked continuation waits for a request that was sent. *)
Definition promises_issued (w : World) : Prop :=
  ∀ p k, awaiting w !! p = Some k → p < length (net w).

(** An assignment call is in flight when its continuation is parked. *)
Definition assign_pending (w : World) (p : Promise) : Prop :=
  ∃ m flight, awaiting w !! p = Some (K_confirmAssign m flight).

#[global] Instance Method_eq_dec : EqDecision Method.
Proof. solve_decision. Defined.

(** The number of [POST] requests handed to axios so far; the assign
    endpoint is the only one the client posts to. *)
Definition posts (n : Net) : nat :=
  length (filter (λ r, method r = POST) n).

(** The invariant of the page: a pending assignment call keeps [assigning]
    set, and there is at most one. *)
Record single_flight (w : World) : Prop := mkSingleFlight {
  pending_assigning : ∀ p, assign_pending w p → assigning (state w) = true;
  pending_unique :
    ∀ p q, assign_pending w p → assign_pending w q → p = q
}.

(** [w'] differs from [w] in nothing the invariant looks at. *)
Definition quiet (w w' : World) : Prop :=
  assigning (state w') = assigning (state w) ∧
  ∀ p, assign_pending w' p → assign_pending w p.

(** ** A session on the page

    The scenario of the specification: two flights, one recommendation for
    AI101; the user selects AI101, opens the confirmation modal for E1 and
    confirms, and the call succeeds. *)

Definition AI101 : Flight :=
  mkFlight "AI101" "DEL-BOM" "A320" "2025-03-01T06:10" 6 4.
Definition AI202 : Flight :=
  mkFlight "AI202" "BOM-BLR" "B737" "2025-03-01T09:40" 5 3.
Definition E1 : Recommendation :=
  mkRecommendation "E1" "Asha Rao" "Captain" "DEL" 88 1.

Definition flights_loaded_events : list Event :=
  [ Mounted; SearchParams None;
    FlightsSettled 0 (Fulfilled (mkResponse [AI101; AI202])) ].

Definition modal_opened_events : list Event :=
  flights_loaded_events ++
  [ SelectChange "AI101";
    RecommendationsSettled 1 (Fulfilled (mkResponse [E1]));
    AssignClick E1 ].

Definition assignment_pending_events : list Event :=
  modal_opened_events ++ [ConfirmClick].

Definition flights_loaded : World := run flights_loaded_events initialWorld.
Definition modal_opened : World := run modal_opened_events initialWorld.
Definition assignment_pending : World :=
  run assignment_pending_events initialWorld.
Definition assignment_done : World :=
  step (AssignSettled 2 (Fulfilled (mkResponse "ok"))) assignment_pending.

(** ** The rest of the page

    The parts of the render and the notions that the further properties
    are stated with. *)

(** The request of [api.getAllFlights]. *)
Definition flights_request : Request :=
  mkRequest GET (API_BASE +:+ "/flights") None.

(** The request each operation of the client hands to axios. *)
Definition request_of (op : ApiOp) : Request :=
  match op with
  | GetDashboardStats => mkRequest GET (API_BASE +:+ "/dashboard/stats") None
  | GetAllFlights => mkRequest GET (API_BASE +:+ "/flights") None
  | GetFlightById f => mkRequest GET (API_BASE +:+ "/flights/" +:+ f) None
  | GetAllCrew => mkRequest GET (API_BASE +:+ "/crew") None
  | GetCrewById e => mkRequest GET (API_BASE +:+ "/crew/" +:+ e) None
  | GetRecommendations f =>
      mkRequest GET (API_BASE +:+ "/recommendations/" +:+ f) None
  | AssignCrewToFlight e f =>
      mkRequest POST (API_BASE +:+ "/crew/" +:+ e +:+ "/assign")
                (Some [("flight_number", f)])
  | HealthCheck => mkRequest GET (API_BASE +:+ "/health") None
  end.

(** The requests the page has a call site for: the flight list, the
    recommendations of a non-empty flight number, an assignment. *)
Definition page_request (r : Request) : Prop :=
  r = flights_request ∨
  (∃ f, f ≠ "" ∧ r = recommendations_request f) ∨
  (∃ e f, r = assign_request e f).

(** [{loading && (<spinner/>)}] *)
Definition showSpinner (s : State) : bool := loading s.

(** [{!loading && recommendations.length === 0 && selectedFlight && (...)}] *)
Definition showNoRecommendations (s : State) : bool :=
  negb (loading s) && Nat.eqb (length (recommendations s)) 0
  && truthy (selectedFlight s).

(** [{!loading && recommendations.length > 0 && (...)}] *)
Definition showCards (s : State) : bool :=
  negb (loading s) && Nat.ltb 0 (length (recommendations s)).

(** [{selectedFlight && selectedFlightData && (<h3>...</h3>)}] *)
Definition heading (s : State) : option string :=
  if truthy (selectedFlight s) then
    f ← selectedFlightData s;
    Some ("Top 5 Recommendations for " +:+ flightNumber f +:+
          " (" +:+ route f +:+ ")")
  else None.

(** A recommendation load is in flight. *)
Definition load_pending (w : World) (p : Promise) : Prop :=
  awaiting w !! p = Some K_loadRecommendations.

(** The flag [flag] is set only while a continuation of kind [kind] is
    parked. *)
Definition flag_backed (flag : State → bool) (kind : Kont → Prop)
    (w : World) : Prop :=
  flag (state w) = true → ∃ p k, awaiting w !! p = Some k ∧ kind k.

Definition is_load (k : Kont) : Prop := k = K_loadRecommendations.
Definition is_assign (k : Kont) : Prop := ∃ m flight, k = K_confirmAssign m flight.

(** The success notice is on the page only while a timer that will take
    it away is scheduled. *)
Definition notice_backed (w : World) : Prop :=
  is_Some (assignSuccess (state w)) →
  ∃ i flight, timers w !! i = Some (mkTimer 3000 (CB_reload flight)).

(** A deep link to a flight that is not in the list, and the modal opened
    on its recommendations. *)
Definition unknown_flight_modal_events : list Event :=
  [ Mounted; SearchParams (Some "ZZ999");
    FlightsSettled 0 (Fulfilled (mkResponse [AI101; AI202]));
    RecommendationsSettled 1 (Fulfilled (mkResponse [E1]));
    AssignClick E1 ].

(** Two selections in a row, both fetches still outstanding. *)
Definition two_loads_pending : World :=
  run [SelectChange "AI101"; SelectChange "AI202"] flights_loaded.

(** A rejection of the assign call that carries a message. *)
Definition crew_taken : AxiosError :=
  mkAxiosError
    (Some (mkResponse (Some (mkErrorBody (Some "Crew already assigned"))))).

(** * Properties *)

(** ** The API client *)

Lemma call_one_request (op : ApiOp) (n : Net) :
  ∃ r, call op n = (n ++ [r], length n).
Proof. destruct op; eexists; reflexivity. Qed.

Lemma serves_table (c : Capability) (n : Net) :
  call (serves c) n = (n ++ [table_request c], length n).
Proof. destruct c; reflexivity. Qed.

Lemma serves_covers (op : ApiOp) :
  op = GetDashboardStats ∨ ∃ c, op = serves c.
Proof.
  destruct op as [| |f| |e|f|e f|]; [by left|right..].
  - by exists ListFlights.
  - by exists (GetFlight f).
  - by exists ListCrew.
  - by exists (GetCrew e).
  - by exists (GetRecommendationsFor f).
  - by exists (AssignCrew e f).
  - by exists HealthProbe.
Qed.

(** C7, as stated, fails: the client has an operation, [getDashboardStats],
    whose request ([GET /dashboard/stats]) matches no row of the capability
    table. *)
Lemma api_table_counterexample :
  ¬ ∃ c, call GetDashboardStats [] = ([table_request c], 0).
Proof.
  intros [c H]. destruct c; cbv in H; discriminate H.
Qed.

(** C7 (amended): every operation of the client hands axios exactly one
    request and returns the promise of that very request; every capability
    of the table is served by an operation whose request is the one of its
    table row; the only operation
    outside the table is [getDashboardStats], one [GET] to
    [/dashboard/stats]; and [assignCrewToFlight] is one [POST] to
    [/crew/{empId}/assign] with body [{ flight_number }]. *)
Theorem api_one_request_per_capability (n : Net) :
  (∀ op, ∃ r, call op n = (n ++ [r], length n)) ∧
  (∀ c, call (serves c) n = (n ++ [table_request c], length n)) ∧
  (∀ op, op = GetDashboardStats ∨ ∃ c, op = serves c) ∧
  call GetDashboardStats n =
    (n ++ [mkRequest GET "http://localhost:5000/api/dashboard/stats" None],
     length n) ∧
  (∀ empId flight,
     api.assignCrewToFlight empId flight n =
       (n ++ [mkRequest POST
                (API_BASE +:+ "/crew/" +:+ empId +:+ "/assign")
                (Some [("flight_number", flight)])],
        length n)).
Proof.
  split; [|split; [|split; [|split]]].
  - intros op. apply call_one_request.
  - intros c. apply serves_table.
  - apply serves_covers.
  - reflexivity.
  - reflexivity.
Qed.

(** ** Loading recommendations *)

Lemma truthy_nonempty (s : string) : s ≠ "" → truthy s = true.
Proof. by destruct s. Qed.

Lemma loadRecommendations_empty (w : World) : loadRecommendations "" w = w.
Proof. reflexivity. Qed.

Lemma loadRecommendations_nonempty (flightNumber : string) (w : World) :
  flightNumber ≠ "" →
  loadRecommendations flightNumber w =
    mkWorld (state (setLoading true w))
            (net w ++ [recommendations_request flightNumber])
            (<[length (net w) := K_loadRecommendations]> (awaiting w))
            (timers w) (console w) (alerts w).
Proof.
  intros Hne. unfold loadRecommendations.
  by rewrite (truthy_nonempty _ Hne).
Qed.

Lemma loadRecommendations_net (flightNumber : string) (w : World) :
  net (loadRecommendations flightNumber w) =
    if truthy flightNumber
    then net w ++ [recommendations_request flightNumber]
    else net w.
Proof. unfold loadRecommendations. by destruct (truthy flightNumber). Qed.

Lemma step_recommendations_settled p r (w : World) :
  awaiting w !! p = Some K_loadRecommendations →
  step (RecommendationsSettled p r) w =
    loadRecommendations_resume r (settle p w).
Proof. intros H. cbn [step]. by rewrite H. Qed.

Lemma loadRecommendations_resume_state r (w : World) :
  state (loadRecommendations_resume r w) =
    mkState (flights (state w)) (selectedFlight (state w))
            (match r with Fulfilled resp => data resp | Rejected _ => [] end)
            false (assignModal (state w)) (assigning (state w))
            (assignSuccess (state w)).
Proof. by destruct r. Qed.

(** C2: a load with a non-empty flight number sets [loading] before it
    hands the request to axios; whenever its promise settles,
    [recommendations] becomes the response list on success and the empty
    list on failure, and [loading] is false in both cases.  With the empty
    flight number nothing changes. *)
Theorem loadRecommendations_contract (flightNumber : string) (w : World) :
  (flightNumber ≠ "" →
     let w1 := loadRecommendations flightNumber w in
     let p := length (net w) in
     loading (state w1) = true ∧
     w1 = await (api.getRecommendations flightNumber) K_loadRecommendations
                (setLoading true w) ∧
     net w1 = net w ++ [recommendations_request flightNumber] ∧
     awaiting w1 !! p = Some K_loadRecommendations ∧
     ∀ (w' : World) r,
       awaiting w' !! p = Some K_loadRecommendations →
       let w2 := step (RecommendationsSettled p r) w' in
       recommendations (state w2) =
         match r with Fulfilled resp => data resp | Rejected _ => [] end ∧
       loading (state w2) = false) ∧
  (flightNumber = "" → loadRecommendations flightNumber w = w).
Proof.
  split.
  - intros Hne w1 p. subst w1 p.
    split; [|split; [|split; [|split]]].
    + by rewrite (loadRecommendations_nonempty _ _ Hne).
    + unfold loadRecommendations. by rewrite (truthy_nonempty _ Hne).
    + by rewrite (loadRecommendations_nonempty _ _ Hne).
    + rewrite (loadRecommendations_nonempty _ _ Hne). cbn [awaiting].
      by rewrite lookup_insert_eq.
    + intros w' r Hp w2. subst w2.
      rewrite (step_recommendations_settled _ _ _ Hp).
      by rewrite loadRecommendations_resume_state.
  - intros ->. apply loadRecommendations_empty.
Qed.

Lemma reload_state (flightNumber : string) L (w : World) :
  flightNumber ≠ "" →
  state (reload flightNumber L w) =
    mkState (flights (state w)) (selectedFlight (state w)) L false
            (assignModal (state w)) (assigning (state w))
            (assignSuccess (state w)).
Proof.
  intros Hne. unfold reload.
  rewrite step_recommendations_settled.
  - rewrite loadRecommendations_resume_state.
    by rewrite (loadRecommendations_nonempty _ _ Hne).
  - rewrite (loadRecommendations_nonempty _ _ Hne). cbn.
    by rewrite lookup_insert_eq.
Qed.

(** C6: loading the same flight twice with the same response list [L]
    leaves [recommendations] equal to [L]; the second load changes no slot
    of the state. *)
Theorem reload_idempotent (flightNumber : string)
    (L : list Recommendation) (w : World) :
  flightNumber ≠ "" →
  recommendations (state (reload flightNumber L w)) = L ∧
  recommendations (state (reload flightNumber L (reload flightNumber L w)))
    = L ∧
  state (reload flightNumber L (reload flightNumber L w)) =
    state (reload flightNumber L w).
Proof.
  intros Hne. rewrite !(reload_state _ _ _ Hne). by cbn.
Qed.

(** ** Selecting a flight *)

Lemma step_select (value : string) (w : World) (v : View) :
  render (state w) = Some v → value ∈ options v →
  step (SelectChange value) w = handleFlightChange value w.
Proof.
  intros Hr Hin. cbn [step]. rewrite Hr. by rewrite decide_True.
Qed.

(** C5: a selection event with a non-empty value [F] hands axios exactly
    one request, the recommendation fetch for [F]; a selection of the empty
    value issues no request, parks no continuation and leaves
    [recommendations] as it was. *)
Theorem select_flight_fetches_once (F : string) (w : World) (v : View) :
  render (state w) = Some v → F ∈ options v →
  let w' := step (SelectChange F) w in
  selectedFlight (state w') = F ∧
  (F ≠ "" → net w' = net w ++ [recommendations_request F]) ∧
  (F = "" →
     net w' = net w ∧ awaiting w' = awaiting w ∧
     recommendations (state w') = recommendations (state w) ∧
     loading (state w') = loading (state w)).
Proof.
  intros Hr Hin w'. subst w'. rewrite (step_select _ _ _ Hr Hin).
  unfold handleFlightChange. split; [|split].
  - unfold loadRecommendations. by destruct (truthy F).
  - intros Hne. by rewrite (loadRecommendations_nonempty _ _ Hne).
  - by intros ->.
Qed.

(** ** Confirming an assignment *)

Lemma confirmAssign_absent (snap : State) (w : World) :
  assignModal snap = None → confirmAssign snap w = w.
Proof. intros H. unfold confirmAssign. by rewrite H. Qed.

Lemma confirmAssign_present (snap : State) (m : Recommendation) (w : World) :
  assignModal snap = Some m →
  confirmAssign snap w =
    mkWorld (state (setAssigning true w))
            (net w ++ [assign_request (emp_id m) (selectedFlight snap)])
            (<[length (net w) := K_confirmAssign m (selectedFlight snap)]>
               (awaiting w))
            (timers w) (console w) (alerts w).
Proof. intros H. unfold confirmAssign. by rewrite H. Qed.

Lemma step_assign_settled p m flight r (w : World) :
  awaiting w !! p = Some (K_confirmAssign m flight) →
  step (AssignSettled p r) w = confirmAssign_resume m flight r (settle p w).
Proof. intros H. cbn [step]. by rewrite H. Qed.

Lemma confirmAssign_resume_fulfilled m flight resp (w : World) :
  confirmAssign_resume m flight (Fulfilled resp) w =
    mkWorld (mkState (flights (state w)) (selectedFlight (state w))
                     (recommendations (state w)) (loading (state w))
                     None false (Some (Notice.mk (name m) flight)))
            (net w) (awaiting w)
            (timers w ++ [mkTimer 3000 (CB_reload flight)])
            (console w ++ ["Assignment successful:"]) (alerts w).
Proof. reflexivity. Qed.

Lemma confirmAssign_resume_rejected m flight e (w : World) :
  confirmAssign_resume m flight (Rejected e) w =
    mkWorld (mkState (flights (state w)) (selectedFlight (state w))
                     (recommendations (state w)) (loading (state w))
                     (assignModal (state w)) false (assignSuccess (state w)))
            (net w) (awaiting w) (timers w)
            (console w ++ ["Assignment failed:"])
            (alerts w ++ ["Error: " +:+ errorMsg e]).
Proof. reflexivity. Qed.

(** C4: [confirmAssign] returns at once when the render's [assignModal] is
    absent.  Otherwise it sets [assigning], hands axios the one [POST] for
    ([assignModal.emp_id], [selectedFlight]) and waits; when that promise is
    fulfilled, [assignSuccess] becomes
    [{crewName: assignModal.name, flightNumber: selectedFlight}],
    [assignModal] is cleared and exactly one timer of 3000ms is added.  The
    task of that timer is the reload-and-clear one: wherever it fires, it
    runs [loadRecommendations(selectedFlight)] and then
    [setAssignSuccess(null)], so the notice goes and, for a non-empty flight
    number, [loading] is set and the one recommendation fetch is sent. *)
Theorem confirmAssign_contract (snap : State) (w : World) :
  (assignModal snap = None → confirmAssign snap w = w) ∧
  (∀ m, assignModal snap = Some m →
     let w1 := confirmAssign snap w in
     let p := length (net w) in
     let flight := selectedFlight snap in
     assigning (state w1) = true ∧
     (net w1, p) = api.assignCrewToFlight (emp_id m) flight (net w) ∧
     net w1 = net w ++ [assign_request (emp_id m) flight] ∧
     awaiting w1 !! p = Some (K_confirmAssign m flight) ∧
     (∀ (w' : World) resp,
        awaiting w' !! p = Some (K_confirmAssign m flight) →
        let w2 := step (AssignSettled p (Fulfilled resp)) w' in
        assignSuccess (state w2) = Some (Notice.mk (name m) flight) ∧
        assignModal (state w2) = None ∧
        timers w2 = timers w' ++ [mkTimer 3000 (CB_reload flight)] ∧
        timers w2 !! length (timers w') =
          Some (mkTimer 3000 (CB_reload flight))) ∧
     (∀ (w3 : World) i,
        timers w3 !! i = Some (mkTimer 3000 (CB_reload flight)) →
        let w4 := step (TimerFired i) w3 in
        w4 = setAssignSuccess None
               (loadRecommendations flight (clearTimer i w3)) ∧
        assignSuccess (state w4) = None ∧
        timers w4 = delete i (timers w3) ∧
        net w4 =
          (if truthy flight then net w3 ++ [recommendations_request flight]
           else net w3) ∧
        (flight ≠ "" →
           loading (state w4) = true ∧
           awaiting w4 !! length (net w3) = Some K_loadRecommendations))).
Proof.
  split; [apply confirmAssign_absent|].
  intros m Hm w1 p flight. subst w1 p flight.
  rewrite (confirmAssign_present _ _ _ Hm).
  split; [done|]. split; [done|]. split; [done|].
  split; [|split].
  - cbn [awaiting]. by rewrite lookup_insert_eq.
  - intros w' resp Hp w2. subst w2.
    rewrite (step_assign_settled _ _ _ _ _ Hp).
    rewrite confirmAssign_resume_fulfilled.
    split; [done|]. split; [done|]. split; [done|].
    cbn [timers settle]. by rewrite list_lookup_middle.
  - intros w3 i Ht w4. subst w4. cbn [step]. rewrite Ht.
    cbn [callback run_callback]. split; [done|]. split; [done|].
    split; [|split].
    + unfold loadRecommendations.
      by destruct (truthy (selectedFlight snap)).
    + cbn [setAssignSuccess with_state net].
      by rewrite loadRecommendations_net.
    + intros Hne. rewrite (loadRecommendations_nonempty _ _ Hne).
      cbn. by rewrite lookup_insert_eq.
Qed.

(** *** The failure branch *)

Lemma errorMsg_cases (e : AxiosError) :
  match server_error e with
  | Some (String c s) => errorMsg e = String c s
  | Some "" | None => errorMsg e = "Failed to assign crew"
  end.
Proof. unfold errorMsg. by destruct (server_error e) as [[|c s]|]. Qed.

(** C3, as stated, fails when the server's [error] field is present and
    empty: the alert then carries the fallback text, not the field. *)
Lemma failed_assignment_message_counterexample :
  let e := mkAxiosError (Some (mkResponse (Some (mkErrorBody (Some ""))))) in
  let w' := step (AssignSettled 2 (Rejected e)) assignment_pending in
  server_error e = Some "" ∧
  alerts w' = ["Error: Failed to assign crew"] ∧
  alerts w' ≠ [""] ∧ alerts w' ≠ ["Error: "].
Proof. by vm_compute. Qed.

(** C3 (amended): when the assignment call fails, one alert is shown whose
    text is ["Error: "] followed by the server's [error] field when that
    field is present and non-empty, and by ['Failed to assign crew'] when it
    is missing or empty; [assignModal] keeps its value and [assigning] is
    false afterwards. *)
Theorem failed_assignment_message p m flight (e : AxiosError) (w : World) :
  awaiting w !! p = Some (K_confirmAssign m flight) →
  let w' := step (AssignSettled p (Rejected e)) w in
  alerts w' = alerts w ++ ["Error: " +:+ errorMsg e] ∧
  (∀ s, server_error e = Some s → s ≠ "" → errorMsg e = s) ∧
  (server_error e = None ∨ server_error e = Some "" →
     errorMsg e = "Failed to assign crew") ∧
  assignModal (state w') = assignModal (state w) ∧
  assigning (state w') = false.
Proof.
  intros Hp w'. subst w'. rewrite (step_assign_settled _ _ _ _ _ Hp).
  rewrite confirmAssign_resume_rejected. cbn.
  pose proof (errorMsg_cases e) as Hc.
  split; [done|]. split; [|split; [|done]].
  - intros s Hs Hne. rewrite Hs in Hc. by destruct s.
  - intros [Hs|Hs]; by rewrite Hs in Hc.
Qed.

(** C10: a failed assignment writes no slot but [assigning].  The call
    itself only sets [assigning]; the rejection, in whatever world it
    arrives, only resets it, schedules no timer and sends nothing; and when
    the rejection follows the call directly, the six other slots and the
    timers are those from before the call. *)
Theorem failed_assignment_frame (snap : State) (m : Recommendation)
    (e : AxiosError) (w : World) :
  assignModal snap = Some m →
  let p := length (net w) in
  let w1 := confirmAssign snap w in
  (state w1 = state (setAssigning true w) ∧ timers w1 = timers w) ∧
  (∀ w' : World,
     awaiting w' !! p = Some (K_confirmAssign m (selectedFlight snap)) →
     let w2 := step (AssignSettled p (Rejected e)) w' in
     state w2 = state (setAssigning false w') ∧
     assignSuccess (state w2) = assignSuccess (state w') ∧
     timers w2 = timers w' ∧ net w2 = net w') ∧
  let w2 := step (AssignSettled p (Rejected e)) w1 in
  flights (state w2) = flights (state w) ∧
  selectedFlight (state w2) = selectedFlight (state w) ∧
  recommendations (state w2) = recommendations (state w) ∧
  loading (state w2) = loading (state w) ∧
  assignModal (state w2) = assignModal (state w) ∧
  assignSuccess (state w2) = assignSuccess (state w) ∧
  assigning (state w2) = false ∧
  timers w2 = timers w.
Proof.
  intros Hm p w1. subst p w1.
  rewrite (confirmAssign_present _ _ _ Hm).
  split; [done|]. split.
  - intros w' Hp w2. subst w2.
    rewrite (step_assign_settled _ _ _ _ _ Hp).
    by rewrite confirmAssign_resume_rejected.
  - intros w2. subst w2. rewrite step_assign_settled with (m := m)
      (flight := selectedFlight snap).
    + by rewrite confirmAssign_resume_rejected.
    + cbn [awaiting]. by rewrite lookup_insert_eq.
Qed.

(** ** The delayed reload *)

Lemma loadRecommendations_selectedFlight (flightNumber : string) (w : World) :
  selectedFlight (state (loadRecommendations flightNumber w)) =
    selectedFlight (state w).
Proof. unfold loadRecommendations. by destruct (truthy flightNumber). Qed.

Lemma step_timer_fired i t (w : World) :
  timers w !! i = Some t →
  step (TimerFired i) w = run_callback (callback t) (clearTimer i w).
Proof. intros H. cbn [step]. by rewrite H. Qed.

(** C1, as stated, fails: the user confirms the assignment of E1 to AI101,
    the call succeeds, the user selects AI202, and the timer fires.  The
    request it sends is the fetch for AI101, the flight of the confirming
    render, not the one for AI202, the flight selected when it fires. *)
Lemma delayed_reload_counterexample :
  let w := step (SelectChange "AI202") assignment_done in
  selectedFlight (state w) = "AI202" ∧
  timers w = [mkTimer 3000 (CB_reload "AI101")] ∧
  net (step (TimerFired 0) w) = net w ++ [recommendations_request "AI101"] ∧
  net (step (TimerFired 0) w) ≠ net w ++ [recommendations_request "AI202"].
Proof. by vm_compute. Qed.

(** C1 (amended): after a successful assignment call one timer of 3000ms
    is scheduled; when it fires it clears the success notice and fetches
    the recommendations of the flight that was selected in the render whose
    confirm handler ran (nothing is fetched if that was the empty string),
    whatever [selectedFlight] is by then, and it leaves [selectedFlight]
    alone. *)
Theorem delayed_reload_targets_confirmed_flight
    (snap : State) (m : Recommendation) (resp : Response string)
    (i : nat) (w0 w1 w2 : World) :
  assignModal snap = Some m →
  let flight := selectedFlight snap in
  let p := length (net w0) in
  awaiting (confirmAssign snap w0) !! p = Some (K_confirmAssign m flight) ∧
  (awaiting w1 !! p = Some (K_confirmAssign m flight) →
     timers (step (AssignSettled p (Fulfilled resp)) w1) =
       timers w1 ++ [mkTimer 3000 (CB_reload flight)]) ∧
  (timers w2 !! i = Some (mkTimer 3000 (CB_reload flight)) →
     let w3 := step (TimerFired i) w2 in
     assignSuccess (state w3) = None ∧
     selectedFlight (state w3) = selectedFlight (state w2) ∧
     timers w3 = delete i (timers w2) ∧
     net w3 =
       if truthy flight then net w2 ++ [recommendations_request flight]
       else net w2).
Proof.
  intros Hm flight p. subst flight p. split; [|split].
  - rewrite (confirmAssign_present _ _ _ Hm). cbn [awaiting].
    by rewrite lookup_insert_eq.
  - intros Hp. rewrite (step_assign_settled _ _ _ _ _ Hp).
    by rewrite confirmAssign_resume_fulfilled.
  - intros Ht w3. subst w3. rewrite (step_timer_fired _ _ _ Ht).
    cbn [callback run_callback]. split; [done|]. split; [|split].
    + cbn. by rewrite loadRecommendations_selectedFlight.
    + unfold loadRecommendations. by destruct (truthy (selectedFlight snap)).
    + cbn. by rewrite loadRecommendations_net.
Qed.

(** ** Promises are fresh

    A promise is the position of its request in the log, so a new call
    never takes the place of a continuation that is still parked. *)

Lemma promises_issued_await (op : ApiOp) (k : Kont) (w : World) :
  promises_issued w → promises_issued (await (call op) k w).
Proof.
  intros Hw q k' Hq. unfold await in *.
  destruct (call_one_request op (net w)) as [r Hr]. rewrite Hr in Hq |- *.
  cbn [awaiting net] in *. rewrite length_app. cbn [length].
  apply lookup_insert_Some in Hq as [[<- _]|[_ Hq]]; [lia|].
  apply Hw in Hq. lia.
Qed.

Lemma promises_issued_settle (p : Promise) (w : World) :
  promises_issued w → promises_issued (settle p w).
Proof.
  intros Hw q k Hq. cbn [settle awaiting net] in *.
  apply lookup_delete_Some in Hq as [_ Hq]. by apply Hw in Hq.
Qed.

Lemma promises_issued_loadRecommendations (flightNumber : string) (w : World) :
  promises_issued w → promises_issued (loadRecommendations flightNumber w).
Proof.
  intros Hw. unfold loadRecommendations.
  destruct (truthy flightNumber); cbn [negb]; [|done].
  by apply (promises_issued_await (GetRecommendations flightNumber)).
Qed.

Lemma promises_issued_step (e : Event) (w : World) :
  promises_issued w → promises_issued (step e w).
Proof.
  intros Hw. destruct e as [|fl|v|rec| | |p r|p r|p r|i]; cbn [step].
  - by apply (promises_issued_await GetAllFlights).
  - unfold effect_searchParams. destruct fl as [f|]; [|done].
    destruct (truthy f); [|done].
    by apply promises_issued_loadRecommendations.
  - destruct (render (state w)) as [vw|]; [|done].
    destruct (decide (v ∈ options vw)); [|done].
    by apply promises_issued_loadRecommendations.
  - by destruct (cards <$> render (state w)) as [[|c cs]|].
  - destruct (render (state w) ≫= modal) as [mv|]; [|done].
    by destruct (cancel_disabled mv).
  - destruct (render (state w) ≫= modal) as [mv|]; [|done].
    destruct (confirm_disabled mv); [done|]. unfold confirmAssign.
    destruct (assignModal (state w)) as [m|]; [|done].
    by apply (promises_issued_await
                (AssignCrewToFlight (emp_id m) (selectedFlight (state w)))).
  - destruct (awaiting w !! p) as [[| |m f]|]; try done.
    apply (promises_issued_settle p) in Hw. by destruct r.
  - destruct (awaiting w !! p) as [[| |m f]|]; try done.
    apply (promises_issued_settle p) in Hw. by destruct r.
  - destruct (awaiting w !! p) as [[| |m f]|]; try done.
    apply (promises_issued_settle p) in Hw. by destruct r.
  - destruct (timers w !! i) as [[d [f]]|]; [|done].
    cbn [callback run_callback].
    by apply (promises_issued_loadRecommendations f (clearTimer i w)).
Qed.

Lemma promises_fresh (es : list Event) :
  let w := run es initialWorld in
  promises_issued w ∧ awaiting w !! length (net w) = None.
Proof.
  assert (H : ∀ w, promises_issued w → promises_issued (run es w)).
  { induction es as [|e es IH]; intros w Hw; [done|].
    cbn. by apply IH, promises_issued_step. }
  intros w. assert (Hw : promises_issued w).
  { apply H. intros p k Hp. cbn in Hp. by rewrite lookup_empty in Hp. }
  split; [done|].
  destruct (awaiting w !! length (net w)) as [k|] eqn:Hk; [|done].
  apply Hw in Hk. lia.
Qed.

(** ** At most one assignment call in flight *)

Section Quiet.
  Implicit Types w : World.

Lemma quiet_refl w : quiet w w.
Proof. by split. Qed.

Lemma quiet_trans w1 w2 w3 : quiet w1 w2 → quiet w2 w3 → quiet w1 w3.
Proof.
  intros [Ha1 Hp1] [Ha2 Hp2]. split; [congruence|]. eauto.
Qed.

Lemma quiet_single_flight w w' : quiet w w' → single_flight w → single_flight w'.
Proof.
  intros [Ha Hp] [Hi Hu]. split.
  - intros p Hq. rewrite Ha. eauto.
  - intros p q H1 H2. eauto.
Qed.

Lemma quiet_await op k w :
  (∀ m flight, k ≠ K_confirmAssign m flight) → quiet w (await op k w).
Proof.
  intros Hk. unfold await. destruct (op (net w)) as [n p]. split; [done|].
  intros q (m & f & Hq). cbn [awaiting] in Hq.
  apply lookup_insert_Some in Hq as [[_ ->]|[_ Hq]].
  - by destruct (Hk m f).
  - by exists m, f.
Qed.

Lemma quiet_settle p w : quiet w (settle p w).
Proof.
  split; [done|]. intros q (m & f & Hq). cbn [settle awaiting] in Hq.
  apply lookup_delete_Some in Hq as [_ Hq]. by exists m, f.
Qed.

Lemma quiet_loadRecommendations flightNumber w :
  quiet w (loadRecommendations flightNumber w).
Proof.
  unfold loadRecommendations. destruct (truthy flightNumber); cbn [negb].
  - eapply quiet_trans; [|by apply quiet_await]. by split.
  - apply quiet_refl.
Qed.

Lemma quiet_handleFlightChange value w : quiet w (handleFlightChange value w).
Proof.
  unfold handleFlightChange.
  eapply quiet_trans; [|apply quiet_loadRecommendations]. by split.
Qed.

Lemma quiet_effect_searchParams flight w :
  quiet w (effect_searchParams flight w).
Proof.
  unfold effect_searchParams. destruct flight as [f|]; [|apply quiet_refl].
  destruct (truthy f); [|apply quiet_refl].
  eapply quiet_trans; [|apply quiet_loadRecommendations]. by split.
Qed.

Lemma quiet_run_callback cb w : quiet w (run_callback cb w).
Proof.
  destruct cb as [f]. cbn [run_callback].
  eapply quiet_trans; [apply (quiet_loadRecommendations f)|]. by split.
Qed.

End Quiet.

(** What the modal's buttons show is [assigning], and the modal is on the
    page only when [assignModal] is set. *)
Lemma render_modal (s : State) (mv : ModalView) :
  render s ≫= modal = Some mv →
  (∃ m, assignModal s = Some m) ∧
  cancel_disabled mv = assigning s ∧ confirm_disabled mv = assigning s.
Proof.
  unfold render. destruct (assignModal s) as [m|]; [|done].
  destruct (selectedFlightData s); [|done].
  cbn. intros [= <-]. eauto.
Qed.

Lemma step_cancel_disabled (w : World) :
  assigning (state w) = true → step CancelClick w = w.
Proof.
  intros Ha. cbn [step].
  destruct (render (state w) ≫= modal) as [mv|] eqn:Hr; [|done].
  apply render_modal in Hr as (_ & -> & _). by rewrite Ha.
Qed.

Lemma step_confirm_disabled (w : World) :
  assigning (state w) = true → step ConfirmClick w = w.
Proof.
  intros Ha. cbn [step].
  destruct (render (state w) ≫= modal) as [mv|] eqn:Hr; [|done].
  apply render_modal in Hr as (_ & _ & ->). by rewrite Ha.
Qed.

Lemma single_flight_init : single_flight initialWorld.
Proof.
  split.
  - intros p (m & f & H). cbn in H. by rewrite lookup_empty in H.
  - intros p q (m & f & H). cbn in H. by rewrite lookup_empty in H.
Qed.

Lemma single_flight_step (e : Event) (w : World) :
  single_flight w → single_flight (step e w).
Proof.
  intros Hinv. destruct e as [|fl|v|rec| | |p r|p r|p r|i]; cbn [step].
  - eapply quiet_single_flight; [|done]. by apply quiet_await.
  - eapply quiet_single_flight; [|done]. apply quiet_effect_searchParams.
  - destruct (render (state w)) as [vw|]; [|done].
    destruct (decide (v ∈ options vw)); [|done].
    eapply quiet_single_flight; [|done]. apply quiet_handleFlightChange.
  - destruct (cards <$> render (state w)) as [[|c cs]|]; try done.
    eapply quiet_single_flight; [|done]. by split.
  - destruct (render (state w) ≫= modal) as [mv|]; [|done].
    destruct (cancel_disabled mv); [done|].
    eapply quiet_single_flight; [|done]. by split.
  - destruct (render (state w) ≫= modal) as [mv|] eqn:Hr; [|done].
    apply render_modal in Hr as ([m Hm] & _ & ->).
    destruct (assigning (state w)) eqn:Ha; [done|].
    rewrite (confirmAssign_present _ _ _ Hm).
    assert (Hnone : ∀ q, ¬ assign_pending w q).
    { intros q Hq. apply (pending_assigning _ Hinv) in Hq. congruence. }
    assert (Hnew : ∀ q,
      assign_pending
        (mkWorld (state (setAssigning true w))
           (net w ++ [assign_request (emp_id m) (selectedFlight (state w))])
           (<[length (net w) :=
                K_confirmAssign m (selectedFlight (state w))]> (awaiting w))
           (timers w) (console w) (alerts w)) q → q = length (net w)).
    { intros q (m' & f' & Hq). cbn [awaiting] in Hq.
      apply lookup_insert_Some in Hq as [[<- _]|[_ Hq]]; [done|].
      destruct (Hnone q). by exists m', f'. }
    split; [done|]. intros q1 q2 H1 H2.
    by rewrite (Hnew _ H1), (Hnew _ H2).
  - destruct (awaiting w !! p) as [[| |m f]|]; try done.
    eapply quiet_single_flight; [|done].
    eapply quiet_trans; [apply (quiet_settle p)|]. by destruct r.
  - destruct (awaiting w !! p) as [[| |m f]|]; try done.
    eapply quiet_single_flight; [|done].
    eapply quiet_trans; [apply (quiet_settle p)|]. by destruct r.
  - destruct (awaiting w !! p) as [[| |m f]|] eqn:Hp; try done.
    assert (Hnone : ∀ q, ¬ assign_pending (settle p w) q).
    { intros q (m' & f' & Hq). cbn [settle awaiting] in Hq.
      apply lookup_delete_Some in Hq as [Hne Hq]. apply Hne.
      apply (pending_unique _ Hinv); [by exists m, f|by exists m', f']. }
    assert (Hnone' :
      ∀ q, ¬ assign_pending (confirmAssign_resume m f r (settle p w)) q).
    { intros q (m' & f' & Hq). destruct (Hnone q). exists m', f'.
      by destruct r. }
    split.
    + intros q Hq. by destruct (Hnone' q).
    + intros q1 q2 H1 _. by destruct (Hnone' q1).
  - destruct (timers w !! i) as [t|]; [|done].
    eapply quiet_single_flight; [|done].
    eapply quiet_trans; [|apply quiet_run_callback]. by split.
Qed.

Lemma single_flight_run (es : list Event) (w : World) :
  single_flight w → single_flight (run es w).
Proof.
  revert w. induction es as [|e es IH]; intros w Hinv; [done|].
  cbn. apply IH. by apply single_flight_step.
Qed.

Lemma single_flight_reachable (es : list Event) :
  single_flight (run es initialWorld).
Proof. apply single_flight_run, single_flight_init. Qed.

(** *** Only [confirmAssign] posts *)

Lemma posts_get (n : Net) (u : string) :
  posts (n ++ [mkRequest GET u None]) = posts n.
Proof.
  unfold posts. rewrite filter_app, length_app. cbn.
  case_decide; [done|]. cbn. lia.
Qed.

Lemma posts_loadRecommendations (flightNumber : string) (w : World) :
  posts (net (loadRecommendations flightNumber w)) = posts (net w).
Proof.
  rewrite loadRecommendations_net.
  destruct (truthy flightNumber); [apply posts_get|done].
Qed.

Lemma step_posts (e : Event) (w : World) :
  assigning (state w) = true → posts (net (step e w)) = posts (net w).
Proof.
  intros Ha. destruct e as [|fl|v|rec| | |p r|p r|p r|i].
  - apply posts_get.
  - cbn [step]. unfold effect_searchParams.
    destruct fl as [f|]; [|done]. destruct (truthy f); [|done].
    by rewrite posts_loadRecommendations.
  - cbn [step]. destruct (render (state w)) as [vw|]; [|done].
    destruct (decide (v ∈ options vw)); [|done].
    unfold handleFlightChange. by rewrite posts_loadRecommendations.
  - cbn [step]. by destruct (cards <$> render (state w)) as [[|c cs]|].
  - by rewrite step_cancel_disabled.
  - by rewrite step_confirm_disabled.
  - cbn [step]. destruct (awaiting w !! p) as [[| |m f]|]; try done.
    by destruct r.
  - cbn [step]. destruct (awaiting w !! p) as [[| |m f]|]; try done.
    by destruct r.
  - cbn [step]. destruct (awaiting w !! p) as [[| |m f]|]; try done.
    by destruct r.
  - cbn [step]. destruct (timers w !! i) as [[d [f]]|]; [|done].
    cbn [callback run_callback]. cbn [setAssignSuccess with_state net].
    by rewrite posts_loadRecommendations.
Qed.

(** C8: in every state the page can reach, a click on Cancel changes
    nothing while [assigning] is true, hence nothing while an assignment
    call is in flight; when it does clear [assignModal], [assigning] is
    false. *)
Theorem cancel_blocked_while_assigning (es : list Event) :
  let w := run es initialWorld in
  (assigning (state w) = true → step CancelClick w = w) ∧
  (∀ p, assign_pending w p → step CancelClick w = w) ∧
  (assignModal (state (step CancelClick w)) ≠ assignModal (state w) →
     assigning (state w) = false ∧
     assignModal (state (step CancelClick w)) = None).
Proof.
  intros w. split; [apply step_cancel_disabled|]. split.
  - intros p Hp. apply step_cancel_disabled.
    by apply (pending_assigning _ (single_flight_reachable es) p).
  - intros Hne. destruct (assigning (state w)) eqn:Ha.
    + by rewrite (step_cancel_disabled _ Ha) in Hne.
    + split; [done|]. revert Hne. cbn [step].
      destruct (render (state w) ≫= modal) as [mv|]; [|done].
      by destruct (cancel_disabled mv).
Qed.

(** C9: in every state the page can reach, a click on Confirm changes
    nothing while [assigning] is true; at most one assignment call is in
    flight; and while one is, no event of the page makes the client post
    again. *)
Theorem one_assignment_in_flight (es : list Event) :
  let w := run es initialWorld in
  (assigning (state w) = true → step ConfirmClick w = w) ∧
  (∀ p q, assign_pending w p → assign_pending w q → p = q) ∧
  (∀ p, assign_pending w p →
     assigning (state w) = true ∧
     ∀ e, posts (net (step e w)) = posts (net w)).
Proof.
  intros w. pose proof (single_flight_reachable es) as [Hi Hu].
  split; [apply step_confirm_disabled|]. split; [exact Hu|].
  intros p Hp. split; [by apply (Hi p)|].
  intros e. apply step_posts. by apply (Hi p).
Qed.

(** * The properties on the session

    Each general statement above, applied to the session defined before the
    properties. *)

(** C2 at the first load of AI101 from the initial page. *)
Lemma loadRecommendations_contract_witness :
  let w1 := loadRecommendations "AI101" initialWorld in
  let w2 := step (RecommendationsSettled 0 (Fulfilled (mkResponse [E1]))) w1 in
  loading (state w1) = true ∧
  recommendations (state w2) = [E1] ∧ loading (state w2) = false.
Proof.
  intros w1 w2.
  destruct (loadRecommendations_contract "AI101" initialWorld) as [H _].
  assert (Hne : "AI101" ≠ "") by (intro Heq; discriminate Heq).
  destruct (H Hne) as (Hl & _ & _ & Hp & Hs).
  destruct (Hs w1 (Fulfilled (mkResponse [E1])) Hp) as [Hr Hf].
  split; [exact Hl|]. split; [exact Hr|exact Hf].
Defined.

(** C6 for AI101 and the one-element response. *)
Lemma reload_idempotent_witness :
  recommendations
    (state (reload "AI101" [E1] (reload "AI101" [E1] initialWorld))) = [E1].
Proof.
  assert (Hne : "AI101" ≠ "") by (intro Heq; discriminate Heq).
  destruct (reload_idempotent "AI101" [E1] initialWorld Hne) as (_ & H & _).
  exact H.
Defined.

(** C5 for the selection of AI101 once the flight list is there. *)
Lemma select_flight_fetches_once_witness :
  net (step (SelectChange "AI101") flights_loaded) =
    net flights_loaded ++ [recommendations_request "AI101"].
Proof.
  assert (Hr : render (state flights_loaded) =
               Some (mkView [""; "AI101"; "AI202"] [] None None))
    by (vm_compute; reflexivity).
  assert (Hin : "AI101" ∈ [""; "AI101"; "AI202"])
    by (apply list_elem_of_further, list_elem_of_here).
  assert (Hne : "AI101" ≠ "") by (intro Heq; discriminate Heq).
  destruct (select_flight_fetches_once "AI101" flights_loaded _ Hr Hin)
    as (_ & H & _).
  exact (H Hne).
Defined.

(** C4 for the confirmation of E1 on AI101, up to the firing of the
    timer. *)
Lemma confirmAssign_contract_witness :
  let w1 := confirmAssign (state modal_opened) modal_opened in
  let w2 := step (AssignSettled 2 (Fulfilled (mkResponse "ok"))) w1 in
  let w4 := step (TimerFired 0) w2 in
  net w1 = net modal_opened ++ [assign_request "E1" "AI101"] ∧
  assignSuccess (state w2) = Some (Notice.mk "Asha Rao" "AI101") ∧
  assignModal (state w2) = None ∧
  timers w2 = [mkTimer 3000 (CB_reload "AI101")] ∧
  assignSuccess (state w4) = None ∧
  timers w4 = [] ∧
  net w4 = net w2 ++ [recommendations_request "AI101"] ∧
  loading (state w4) = true.
Proof.
  intros w1 w2 w4.
  destruct (confirmAssign_contract (state modal_opened) modal_opened)
    as [_ H].
  assert (Hm : assignModal (state modal_opened) = Some E1)
    by (vm_compute; reflexivity).
  destruct (H E1 Hm) as (_ & _ & Hn & Hp & Hs & Hfire).
  destruct (Hs w1 (mkResponse "ok") Hp) as (Ha & Hc & Ht & Hi).
  destruct (Hfire w2 0 Hi) as (_ & Hclear & Hgone & Hsent & Hload).
  assert (Hne : selectedFlight (state modal_opened) ≠ "")
    by (vm_compute; intro Heq; discriminate Heq).
  destruct (Hload Hne) as [Hl _].
  split; [exact Hn|]. split; [exact Ha|]. split; [exact Hc|].
  split; [exact Ht|]. split; [exact Hclear|]. split; [exact Hgone|].
  split; [exact Hsent|exact Hl].
Defined.

(** C3 for a rejection that carries an error text. *)
Lemma failed_assignment_message_witness :
  let w' := step (AssignSettled 2 (Rejected crew_taken)) assignment_pending in
  alerts w' = ["Error: Crew already assigned"] ∧
  assignModal (state w') = Some E1 ∧
  assigning (state w') = false.
Proof.
  intros w'.
  assert (Hp : awaiting assignment_pending !! 2 =
               Some (K_confirmAssign E1 "AI101"))
    by (vm_compute; reflexivity).
  destruct (failed_assignment_message 2 E1 "AI101" crew_taken
              assignment_pending Hp) as (Ha & Hs & _ & Hm & Hf).
  assert (Hne : "Crew already assigned" ≠ "")
    by (intro Heq; discriminate Heq).
  pose proof (Hs "Crew already assigned" eq_refl Hne) as Hmsg.
  split; [|split; [exact Hm|exact Hf]].
  rewrite Hmsg in Ha. exact Ha.
Defined.

(** C10 for the same rejection, right after the confirmation. *)
Lemma failed_assignment_frame_witness :
  let w2 := step (AssignSettled 2 (Rejected crew_taken))
                 (confirmAssign (state modal_opened) modal_opened) in
  state w2 = state modal_opened ∧ timers w2 = timers modal_opened.
Proof.
  intros w2.
  assert (Hm : assignModal (state modal_opened) = Some E1)
    by (vm_compute; reflexivity).
  destruct (failed_assignment_frame (state modal_opened) E1 crew_taken
              modal_opened Hm) as (_ & Hany & _).
  assert (Hp : awaiting (confirmAssign (state modal_opened) modal_opened)
                 !! 2 = Some (K_confirmAssign E1 "AI101"))
    by (vm_compute; reflexivity).
  destruct (Hany _ Hp) as (Hs & _ & Ht & _).
  split; [exact Hs|exact Ht].
Defined.

(** C1 (amended) for the session in which the user moves to AI202 before
    the timer fires. *)
Lemma delayed_reload_targets_confirmed_flight_witness :
  let w2 := step (SelectChange "AI202") assignment_done in
  let w3 := step (TimerFired 0) w2 in
  selectedFlight (state w3) = "AI202" ∧
  assignSuccess (state w3) = None ∧
  net w3 = net w2 ++ [recommendations_request "AI101"].
Proof.
  intros w2 w3.
  assert (Hm : assignModal (state modal_opened) = Some E1)
    by (vm_compute; reflexivity).
  destruct (delayed_reload_targets_confirmed_flight (state modal_opened) E1
              (mkResponse "ok") 0 modal_opened assignment_pending w2 Hm)
    as (_ & Hsched & Hfire).
  assert (Hp : awaiting assignment_pending !! 2 =
               Some (K_confirmAssign E1 "AI101"))
    by (vm_compute; reflexivity).
  pose proof (Hsched Hp) as _.
  assert (Ht : timers w2 !! 0 = Some (mkTimer 3000 (CB_reload "AI101")))
    by (vm_compute; reflexivity).
  destruct (Hfire Ht) as (Hs & Hsel & _ & Hn).
  split; [exact Hsel|]. split; [exact Hs|exact Hn].
Defined.

(** C8 while the assignment of E1 is in flight. *)
Lemma cancel_blocked_while_assigning_witness :
  assigning (state assignment_pending) = true ∧
  step CancelClick assignment_pending = assignment_pending.
Proof.
  assert (Ha : assigning (state assignment_pending) = true)
    by (vm_compute; reflexivity).
  split; [exact Ha|].
  destruct (cancel_blocked_while_assigning assignment_pending_events)
    as (H & _ & _).
  exact (H Ha).
Defined.

(** C9 while the assignment of E1 is in flight. *)
Lemma one_assignment_in_flight_witness :
  assign_pending assignment_pending 2 ∧
  step ConfirmClick assignment_pending = assignment_pending ∧
  posts (net (step ConfirmClick assignment_pending)) = 1.
Proof.
  assert (Hp : assign_pending assignment_pending 2)
    by (exists E1, "AI101"; vm_compute; reflexivity).
  destruct (one_assignment_in_flight assignment_pending_events)
    as (Hc & _ & Hpost).
  destruct (Hpost 2 Hp) as (Ha & Hno).
  split; [exact Hp|]. split; [exact (Hc Ha)|].
  transitivity (posts (net assignment_pending));
    [exact (Hno ConfirmClick)|vm_compute; reflexivity].
Defined.

(** The scenario of the specification: confirming E1 on AI101 shows the
    notice "Asha Rao assigned to AI101", and the timer then issues a fresh
    GET to /recommendations/AI101 and takes the notice away. *)
Example scenario_notice_then_reload :
  (notice <$> render (state assignment_done)) =
    Some (Some "Asha Rao assigned to AI101") ∧
  timers assignment_done = [mkTimer 3000 (CB_reload "AI101")] ∧
  net (step (TimerFired 0) assignment_done) =
    net assignment_done ++
    [mkRequest GET "http://localhost:5000/api/recommendations/AI101" None] ∧
  (notice <$> render (state (step (TimerFired 0) assignment_done))) =
    Some None.
Proof. by vm_compute. Qed.

(** * Further properties of the page *)

(** ** Loading the flight list *)




(** ** The flight parameter of the address *)

(** X2: a non-empty [flight] parameter does what selecting that value
    does: [selectedFlight] becomes the parameter and the one fetch for it is
    sent, whether or not the flight is in the list.  A missing or empty
    parameter changes nothing; in particular it does not reset
    [selectedFlight], which selecting the empty value would. *)
Theorem searchParams_effect (w : World) :
  (∀ f, f ≠ "" →
     let w' := step (SearchParams (Some f)) w in
     w' = handleFlightChange f w ∧
     selectedFlight (state w') = f ∧
     loading (state w') = true ∧
     net w' = net w ++ [recommendations_request f] ∧
     load_pending w' (length (net w))) ∧
  step (SearchParams None) w = w ∧
  step (SearchParams (Some "")) w = w ∧
  selectedFlight (state (handleFlightChange "" w)) = "".
Proof.
  split; [|done]. intros f Hne w'. subst w'. cbn [step].
  unfold effect_searchParams, handleFlightChange, load_pending.
  rewrite (truthy_nonempty _ Hne).
  rewrite (loadRecommendations_nonempty _ _ Hne). cbn.
  by rewrite lookup_insert_eq.
Qed.

(** ** When the page fails to render *)

Lemma find_first {A} (f : A → bool) (l : list A) :
  match List.find f l with
  | Some x => ∃ l1 l2, l = l1 ++ x :: l2 ∧ f x = true ∧
                       ∀ y, y ∈ l1 → f y = false
  | None => ∀ y, y ∈ l → f y = false
  end.
Proof.
  induction l as [|a l IH]; cbn.
  - intros y Hy. by apply not_elem_of_nil in Hy.
  - destruct (f a) eqn:Ha.
    + exists [], l. split; [done|]. split; [done|].
      intros y Hy. by apply not_elem_of_nil in Hy.
    + destruct (List.find f l) as [x|].
      * destruct IH as (l1 & l2 & -> & Hx & Hl1).
        exists (a :: l1), l2. split; [done|]. split; [done|].
        intros y [->|Hy]%elem_of_cons; auto.
      * intros y [->|Hy]%elem_of_cons; auto.
Qed.

Lemma selectedFlightData_None (s : State) :
  selectedFlightData s = None ↔
  ∀ f, f ∈ flights s → flightNumber f ≠ selectedFlight s.
Proof.
  unfold selectedFlightData. split.
  - intros H f Hf. pose proof (find_first
      (λ f, String.eqb (flightNumber f) (selectedFlight s)) (flights s)) as Hfind.
    rewrite H in Hfind. by apply String.eqb_neq, Hfind.
  - intros H. pose proof (find_first
      (λ f, String.eqb (flightNumber f) (selectedFlight s)) (flights s)) as Hfind.
    destruct (List.find _ _) as [x|]; [|done].
    destruct Hfind as (l1 & l2 & Hl & Hx & _).
    apply String.eqb_eq in Hx. destruct (H x); [|done].
    rewrite Hl. apply elem_of_app. right. apply elem_of_cons. by left.
Qed.

Lemma selectedFlightData_first (s : State) (f : Flight) :
  selectedFlightData s = Some f →
  ∃ l1 l2, flights s = l1 ++ f :: l2 ∧
           flightNumber f = selectedFlight s ∧
           ∀ g, g ∈ l1 → flightNumber g ≠ selectedFlight s.
Proof.
  intros Hf. unfold selectedFlightData in Hf.
  pose proof (find_first
    (λ f, String.eqb (flightNumber f) (selectedFlight s)) (flights s)) as Hfind.
  rewrite Hf in Hfind. destruct Hfind as (l1 & l2 & Hl & Hx & Hl1).
  exists l1, l2. split; [done|]. split; [by apply String.eqb_eq|].
  intros g Hg. by apply String.eqb_neq, Hl1.
Qed.

(** X3: [selectedFlightData] is the first flight of the list whose number
    is [selectedFlight].  The render fails exactly when the modal is to be
    shown and no flight has that number, because the modal reads
    [selectedFlightData.flightNumber] unguarded; whenever the heading is on
    the page the render succeeds. *)
Theorem render_fails_iff (s : State) :
  (∀ f, selectedFlightData s = Some f →
     ∃ l1 l2, flights s = l1 ++ f :: l2 ∧
              flightNumber f = selectedFlight s ∧
              ∀ g, g ∈ l1 → flightNumber g ≠ selectedFlight s) ∧
  (render s = None ↔
     is_Some (assignModal s) ∧
     ∀ f, f ∈ flights s → flightNumber f ≠ selectedFlight s) ∧
  (is_Some (heading s) → is_Some (render s)).
Proof.
  split; [|split].
  - apply selectedFlightData_first.
  - rewrite <- selectedFlightData_None. unfold render.
    destruct (assignModal s) as [m|].
    + destruct (selectedFlightData s) as [f|].
      * split; [done|]. by intros [_ ?].
      * split; [|done]. intros _. split; [by exists m|done].
    + split; [done|]. by intros [[? ?] _].
  - unfold heading, render. destruct (truthy (selectedFlight s)).
    + destruct (selectedFlightData s) as [f|]; cbn.
      * intros _. by destruct (assignModal s).
      * by intros [? ?].
    + by intros [? ?].
Qed.

(** X3 on a page opened by a link to a flight that is not in the list:
    the modal cannot be rendered. *)
Lemma render_fails_iff_witness :
  let s := state (run unknown_flight_modal_events initialWorld) in
  assignModal s = Some E1 ∧ heading s = None ∧ render s = None.
Proof.
  intros s.
  destruct (render_fails_iff s) as (_ & [_ Hfail] & _).
  split; [by vm_compute|]. split; [by vm_compute|].
  apply Hfail. split; [by exists E1|].
  intros f Hf. vm_compute in Hf.
  apply elem_of_cons in Hf as [->|Hf]; [by vm_compute|].
  apply elem_of_cons in Hf as [->|Hf]; [by vm_compute|].
  by apply not_elem_of_nil in Hf.
Defined.

(** ** What the list area shows *)

(** X4: with a flight selected, the list area shows exactly one of the
    spinner, the “no recommendations” box and the cards.  With no flight
    selected the box never shows, so the area is empty when there is
    nothing to list and nothing loading.  The cards of the render are on
    the page exactly when [showCards] holds. *)
Theorem list_area_exclusive (s : State) :
  (selectedFlight s ≠ "" →
     match showSpinner s, showNoRecommendations s, showCards s with
     | true, false, false | false, true, false | false, false, true => True
     | _, _, _ => False
     end) ∧
  (selectedFlight s = "" →
     showNoRecommendations s = false ∧
     (showSpinner s && showCards s = false) ∧
     (loading s = false → recommendations s = [] →
      showSpinner s = false ∧ showCards s = false)) ∧
  (∀ v, render s = Some v → (cards v ≠ [] ↔ showCards s = true)).
Proof.
  unfold showSpinner, showNoRecommendations, showCards. split; [|split].
  - intros Hne. rewrite (truthy_nonempty _ Hne).
    destruct (loading s); [done|]. by destruct (recommendations s).
  - intros ->. split; [|split].
    + by rewrite andb_false_r.
    + by destruct (loading s).
    + by intros -> ->.
  - intros v Hv. assert (cards v =
      if negb (loading s) then recommendations s else []) as ->.
    { revert Hv. unfold render. destruct (assignModal s); [|by intros [= <-]].
      destruct (selectedFlightData s); [|done]. by intros [= <-]. }
    destruct (loading s); [done|]. by destruct (recommendations s).
Qed.

(** X4 on the page with the modal open for AI101: the cards, and only
    the cards. *)
Lemma list_area_exclusive_witness :
  let s := state modal_opened in
  selectedFlight s ≠ "" ∧
  match showSpinner s, showNoRecommendations s, showCards s with
  | true, false, false | false, true, false | false, false, true => True
  | _, _, _ => False
  end.
Proof.
  intros s.
  assert (Hne : selectedFlight s ≠ "")
    by (vm_compute; intro Heq; discriminate Heq).
  destruct (list_area_exclusive s) as (H & _ & _).
  split; [exact Hne|exact (H Hne)].
Defined.

(** ** Settled loads *)

Lemma loadRecommendations_resume_rest r (w : World) :
  net (loadRecommendations_resume r w) = net w ∧
  awaiting (loadRecommendations_resume r w) = awaiting w ∧
  timers (loadRecommendations_resume r w) = timers w ∧
  alerts (loadRecommendations_resume r w) = alerts w.
Proof. by destruct r. Qed.

(** X5: a failed recommendation load leaves the page in the state an
    empty response would: the same seven slots, hence the same render, with
    the “no recommendations” box whenever a flight is selected.  The failure
    shows in the console only; no alert is raised. *)
Theorem failed_load_looks_empty p (e : AxiosError) (w : World) :
  load_pending w p →
  let w_failed := step (RecommendationsSettled p (Rejected e)) w in
  let w_empty :=
    step (RecommendationsSettled p (Fulfilled (mkResponse []))) w in
  state w_failed = state w_empty ∧
  render (state w_failed) = render (state w_empty) ∧
  showNoRecommendations (state w_failed) =
    truthy (selectedFlight (state w)) ∧
  alerts w_failed = alerts w ∧
  console w_failed = console w ++ ["Error loading recommendations:"] ∧
  console w_empty = console w.
Proof.
  intros Hp w1 w2. subst w1 w2.
  rewrite !(step_recommendations_settled _ _ _ Hp).
  rewrite !loadRecommendations_resume_state. by cbn.
Qed.

(** X5 for the first load of the session. *)
Lemma failed_load_looks_empty_witness :
  let w := step (SelectChange "AI101") flights_loaded in
  showNoRecommendations
    (state (step (RecommendationsSettled 1 (Rejected crew_taken)) w)) = true.
Proof.
  intros w.
  assert (Hp : load_pending w 1) by (vm_compute; reflexivity).
  destruct (failed_load_looks_empty 1 crew_taken w Hp) as (_ & _ & H & _).
  transitivity (truthy (selectedFlight (state w)));
    [exact H|vm_compute; reflexivity].
Defined.

(** X6: two recommendation loads may be outstanding at once, and nothing
    ties a response to the selection.  When the first of them settles the
    spinner goes although the other is still awaited, and the list the
    second one brings replaces the first's, whatever [selectedFlight] is:
    the load that settles last wins. *)
Theorem last_settled_load_wins p q r1 (L2 : list Recommendation) (w : World) :
  p ≠ q → load_pending w p → load_pending w q →
  let w1 := step (RecommendationsSettled p r1) w in
  let w2 := step (RecommendationsSettled q (Fulfilled (mkResponse L2))) w1 in
  loading (state w1) = false ∧ load_pending w1 q ∧
  recommendations (state w2) = L2 ∧
  selectedFlight (state w2) = selectedFlight (state w).
Proof.
  intros Hne Hp Hq w1 w2. subst w1 w2.
  rewrite (step_recommendations_settled _ _ _ Hp).
  assert (Hq' : load_pending
                  (loadRecommendations_resume r1 (settle p w)) q).
  { unfold load_pending.
    destruct (loadRecommendations_resume_rest r1 (settle p w)) as (_ & -> & _).
    cbn [settle awaiting]. by rewrite lookup_delete_ne. }
  rewrite (step_recommendations_settled _ _ _ Hq').
  rewrite !loadRecommendations_resume_state. cbn.
  split; [done|]. split; [done|]. split; [done|]. by destruct r1.
Qed.

(** X6 on the page: AI101 then AI202 are selected, the response for AI202
    arrives first and the one for AI101 last; the page lists the crew of
    AI101 under the selection AI202. *)
Lemma last_settled_load_wins_witness :
  let w2 :=
    run [ RecommendationsSettled 2 (Fulfilled (mkResponse []));
          RecommendationsSettled 1 (Fulfilled (mkResponse [E1])) ]
        two_loads_pending in
  selectedFlight (state w2) = "AI202" ∧ recommendations (state w2) = [E1].
Proof.
  intros w2.
  assert (Hne : 2 ≠ 1) by lia.
  assert (H2 : load_pending two_loads_pending 2) by (vm_compute; reflexivity).
  assert (H1 : load_pending two_loads_pending 1) by (vm_compute; reflexivity).
  destruct (last_settled_load_wins 2 1 (Fulfilled (mkResponse [])) [E1]
              two_loads_pending Hne H2 H1) as (_ & _ & Hr & Hs).
  split; [|exact Hr].
  transitivity (selectedFlight (state two_loads_pending));
    [exact Hs|vm_compute; reflexivity].
Defined.

(** ** Confirming again *)

Lemma render_modal_flight (s : State) (mv : ModalView) :
  render s ≫= modal = Some mv →
  ∃ m f, assignModal s = Some m ∧ selectedFlightData s = Some f ∧
         cancel_disabled mv = assigning s ∧ confirm_disabled mv = assigning s.
Proof.
  unfold render. destruct (assignModal s) as [m|]; [|done].
  destruct (selectedFlightData s) as [f|]; [|done].
  cbn. intros [= <-]. by exists m, f.
Qed.

(** X7: a click on Confirm either changes nothing or runs [confirmAssign]
    on a page where the Confirm button is enabled; in that case [assigning]
    was false and the flight named in the request is the number of a flight
    of the list, because the modal does not render without one. *)
Theorem confirm_posts_for_listed_flight (w : World) :
  step ConfirmClick w = w ∨
  ∃ m f,
    assignModal (state w) = Some m ∧ assigning (state w) = false ∧
    f ∈ flights (state w) ∧ flightNumber f = selectedFlight (state w) ∧
    step ConfirmClick w = confirmAssign (state w) w ∧
    net (step ConfirmClick w) =
      net w ++ [assign_request (emp_id m) (flightNumber f)].
Proof.
  cbn [step]. destruct (render (state w) ≫= modal) as [mv|] eqn:Hr;
    [|by left].
  apply render_modal_flight in Hr as (m & f & Hm & Hf & _ & ->).
  destruct (assigning (state w)) eqn:Ha; [by left|]. right.
  destruct (selectedFlightData_first _ _ Hf) as (l1 & l2 & Hl & Hnum & _).
  exists m, f. split; [done|]. split; [done|]. split.
  { rewrite Hl. apply elem_of_app. right. apply elem_of_cons. by left. }
  split; [done|]. split; [done|].
  rewrite (confirmAssign_present _ _ _ Hm). cbn [net]. by rewrite Hnum.
Qed.

(** X8: a failed assignment leaves the page ready for the same attempt.
    On a page whose Confirm button is enabled, confirming and having the
    call rejected restores the state from before the click, and a second
    click sends the same request once more. *)
Theorem failed_assignment_retry (mv : ModalView) (e : AxiosError) (w : World) :
  render (state w) ≫= modal = Some mv → confirm_disabled mv = false →
  let p := length (net w) in
  let w2 := step (AssignSettled p (Rejected e)) (step ConfirmClick w) in
  state w2 = state w ∧
  ∃ m, assignModal (state w) = Some m ∧
       net w2 = net w ++ [assign_request (emp_id m) (selectedFlight (state w))] ∧
       net (step ConfirmClick w2) =
         net w ++ [assign_request (emp_id m) (selectedFlight (state w));
                   assign_request (emp_id m) (selectedFlight (state w))] ∧
       assigning (state (step ConfirmClick w2)) = true.
Proof.
  intros Hr Hen p w2. subst p w2.
  pose proof Hr as Hr'.
  apply render_modal_flight in Hr' as (m & f & Hm & Hf & _ & Hd).
  rewrite Hen in Hd. symmetry in Hd.
  assert (Hc : step ConfirmClick w = confirmAssign (state w) w).
  { cbn [step]. rewrite Hr. by rewrite Hen. }
  rewrite Hc, (confirmAssign_present _ _ _ Hm).
  rewrite step_assign_settled with (m := m) (flight := selectedFlight (state w));
    [|cbn [awaiting]; by rewrite lookup_insert_eq].
  rewrite confirmAssign_resume_rejected. cbn -[render assign_request].
  assert (Hs : mkState (flights (state w)) (selectedFlight (state w))
                 (recommendations (state w)) (loading (state w))
                 (assignModal (state w)) false (assignSuccess (state w))
               = state w).
  { destruct (state w); cbn in *. by subst. }
  rewrite !Hs. split; [done|]. exists m. split; [done|]. split; [done|].
  rewrite Hr, Hen. rewrite (confirmAssign_present _ _ _ Hm).
  cbn -[assign_request]. split; [|done]. by rewrite <- app_assoc.
Qed.

(** X8 on the session, the call being rejected with a message. *)
Lemma failed_assignment_retry_witness :
  let w2 := step (AssignSettled 2 (Rejected crew_taken))
                 (step ConfirmClick modal_opened) in
  state w2 = state modal_opened ∧
  net (step ConfirmClick w2) =
    net modal_opened ++ [assign_request "E1" "AI101";
                         assign_request "E1" "AI101"].
Proof.
  intros w2.
  assert (Hr : render (state modal_opened) ≫= modal =
               Some (mkModalView false false)) by (vm_compute; reflexivity).
  destruct (failed_assignment_retry _ crew_taken modal_opened Hr eq_refl)
    as (Hs & m & Hm & _ & Hn & _).
  split; [exact Hs|].
  assert (Hm' : assignModal (state modal_opened) = Some E1)
    by (vm_compute; reflexivity).
  rewrite Hm' in Hm. injection Hm as <-. exact Hn.
Defined.

(** ** Flags and what backs them *)

Section FlagBacked.
  Variables (flag : State → bool) (kind : Kont → Prop).
  Implicit Types w : World.

Lemma flag_backed_state f w :
  (∀ s, flag (f s) = flag s) →
  flag_backed flag kind w → flag_backed flag kind (with_state f w).
Proof. intros Hf Hw Hflag. cbn in Hflag. rewrite Hf in Hflag. by apply Hw. Qed.

Lemma flag_backed_off f w :
  (∀ s, flag (f s) = false) → flag_backed flag kind (with_state f w).
Proof. intros Hf Hflag. cbn in Hflag. by rewrite Hf in Hflag. Qed.

Lemma flag_backed_console msg w :
  flag_backed flag kind w → flag_backed flag kind (console_log msg w).
Proof. intros Hw. exact Hw. Qed.

Lemma flag_backed_alert msg w :
  flag_backed flag kind w → flag_backed flag kind (alert msg w).
Proof. intros Hw. exact Hw. Qed.

Lemma flag_backed_setTimeout cb ms w :
  flag_backed flag kind w → flag_backed flag kind (setTimeout cb ms w).
Proof. intros Hw. exact Hw. Qed.

Lemma flag_backed_clearTimer i w :
  flag_backed flag kind w → flag_backed flag kind (clearTimer i w).
Proof. intros Hw. exact Hw. Qed.

Lemma flag_backed_await (op : ApiOp) k w :
  promises_issued w →
  flag_backed flag kind w → flag_backed flag kind (await (call op) k w).
Proof.
  intros Hfresh Hw Hflag. unfold await in *.
  destruct (call_one_request op (net w)) as [r Hr]. rewrite Hr in Hflag |- *.
  destruct (Hw Hflag) as (q & k' & Hq & Hk). exists q, k'. split; [|done].
  cbn [awaiting]. rewrite lookup_insert_ne; [done|].
  apply Hfresh in Hq. lia.
Qed.

Lemma flag_backed_parked (op : ApiOp) k w :
  kind k → flag_backed flag kind (await (call op) k w).
Proof.
  intros Hk _. unfold await.
  destruct (call_one_request op (net w)) as [r ->].
  exists (length (net w)), k. split; [|done].
  cbn [awaiting]. by rewrite lookup_insert_eq.
Qed.

Lemma flag_backed_settle p k0 w :
  awaiting w !! p = Some k0 → ¬ kind k0 →
  flag_backed flag kind w → flag_backed flag kind (settle p w).
Proof.
  intros Hp Hk0 Hw Hflag. destruct (Hw Hflag) as (q & k & Hq & Hk).
  exists q, k. split; [|done]. cbn [settle awaiting].
  rewrite lookup_delete_ne; [done|]. intros ->. congruence.
Qed.

End FlagBacked.

Lemma promises_issued_run (es : list Event) (w : World) :
  promises_issued w → promises_issued (run es w).
Proof.
  revert w. induction es as [|e es IH]; intros w Hw; [done|].
  cbn. by apply IH, promises_issued_step.
Qed.

Lemma promises_issued_init : promises_issued initialWorld.
Proof. intros p k Hp. cbn in Hp. by rewrite lookup_empty in Hp. Qed.

(** *** [loading] *)

Lemma loading_backed_load (flightNumber : string) (w : World) :
  flag_backed loading is_load w →
  flag_backed loading is_load (loadRecommendations flightNumber w).
Proof.
  intros Hw. unfold loadRecommendations.
  destruct (truthy flightNumber); cbn [negb]; [|done].
  by apply (flag_backed_parked _ _ (GetRecommendations flightNumber)).
Qed.

Lemma loading_backed_step (e : Event) (w : World) :
  promises_issued w → flag_backed loading is_load w →
  flag_backed loading is_load (step e w).
Proof.
  intros Hfresh Hw. destruct e as [|fl|v|rec| | |p r|p r|p r|i]; cbn [step].
  - by apply (flag_backed_await _ _ GetAllFlights).
  - unfold effect_searchParams. destruct fl as [f|]; [|done].
    destruct (truthy f); [|done].
    by apply loading_backed_load, flag_backed_state.
  - destruct (render (state w)) as [vw|]; [|done].
    destruct (decide (v ∈ options vw)); [|done].
    by apply loading_backed_load, flag_backed_state.
  - destruct (cards <$> render (state w)) as [[|c cs]|];
      first [done|by apply flag_backed_state].
  - destruct (render (state w) ≫= modal) as [mv|]; [|done].
    destruct (cancel_disabled mv);
      first [done|by apply flag_backed_state].
  - destruct (render (state w) ≫= modal) as [mv|]; [|done].
    destruct (confirm_disabled mv); [done|]. unfold confirmAssign.
    destruct (assignModal (state w)) as [m|]; [|done].
    apply (flag_backed_await _ _
             (AssignCrewToFlight (emp_id m) (selectedFlight (state w))));
      [done|by apply flag_backed_state].
  - destruct (awaiting w !! p) as [[| |m f]|] eqn:Hp; try done.
    assert (Hs : flag_backed loading is_load (settle p w))
      by (by apply (flag_backed_settle _ _ p K_loadFlights)).
    destruct r; [by apply flag_backed_state|by apply flag_backed_console].
  - destruct (awaiting w !! p) as [[| |m f]|];
      first [done|by apply flag_backed_off].
  - destruct (awaiting w !! p) as [[| |m f]|] eqn:Hp; try done.
    assert (Hs : flag_backed loading is_load (settle p w))
      by (by apply (flag_backed_settle _ _ p (K_confirmAssign m f))).
    apply flag_backed_state; [done|]. destruct r.
    + apply flag_backed_setTimeout.
      do 2 (apply flag_backed_state; [done|]).
      by apply flag_backed_console.
    + by apply flag_backed_alert, flag_backed_console.
  - destruct (timers w !! i) as [[d [f]]|]; [|done].
    cbn [callback run_callback]. apply flag_backed_state; [done|].
    by apply loading_backed_load, flag_backed_clearTimer.
Qed.

(** *** [assigning] *)

Lemma assigning_backed_load (flightNumber : string) (w : World) :
  promises_issued w → flag_backed assigning is_assign w →
  flag_backed assigning is_assign (loadRecommendations flightNumber w).
Proof.
  intros Hfresh Hw. unfold loadRecommendations.
  destruct (truthy flightNumber); cbn [negb]; [|done].
  apply (flag_backed_await _ _ (GetRecommendations flightNumber));
    [done|by apply flag_backed_state].
Qed.

Lemma assigning_backed_step (e : Event) (w : World) :
  promises_issued w → flag_backed assigning is_assign w →
  flag_backed assigning is_assign (step e w).
Proof.
  intros Hfresh Hw. destruct e as [|fl|v|rec| | |p r|p r|p r|i]; cbn [step].
  - by apply (flag_backed_await _ _ GetAllFlights).
  - unfold effect_searchParams. destruct fl as [f|]; [|done].
    destruct (truthy f); [|done].
    apply assigning_backed_load; [done|by apply flag_backed_state].
  - destruct (render (state w)) as [vw|]; [|done].
    destruct (decide (v ∈ options vw)); [|done].
    apply assigning_backed_load; [done|by apply flag_backed_state].
  - destruct (cards <$> render (state w)) as [[|c cs]|];
      first [done|by apply flag_backed_state].
  - destruct (render (state w) ≫= modal) as [mv|]; [|done].
    destruct (cancel_disabled mv);
      first [done|by apply flag_backed_state].
  - destruct (render (state w) ≫= modal) as [mv|]; [|done].
    destruct (confirm_disabled mv); [done|]. unfold confirmAssign.
    destruct (assignModal (state w)) as [m|]; [|done].
    apply (flag_backed_parked _ _
             (AssignCrewToFlight (emp_id m) (selectedFlight (state w)))).
    by exists m, (selectedFlight (state w)).
  - destruct (awaiting w !! p) as [[| |m f]|] eqn:Hp; try done.
    assert (Hs : flag_backed assigning is_assign (settle p w)).
    { apply (flag_backed_settle _ _ p K_loadFlights); [done| |done].
      by intros (? & ? & ?). }
    destruct r; [by apply flag_backed_state|by apply flag_backed_console].
  - destruct (awaiting w !! p) as [[| |m f]|] eqn:Hp; try done.
    assert (Hs : flag_backed assigning is_assign (settle p w)).
    { apply (flag_backed_settle _ _ p K_loadRecommendations); [done| |done].
      by intros (? & ? & ?). }
    apply flag_backed_state; [done|]. destruct r.
    + by apply flag_backed_state.
    + apply flag_backed_state; [done|]. by apply flag_backed_console.
  - destruct (awaiting w !! p) as [[| |m f]|];
      first [done|by apply flag_backed_off].
  - destruct (timers w !! i) as [[d [f]]|]; [|done].
    cbn [callback run_callback]. apply flag_backed_state; [done|].
    apply assigning_backed_load; [done|by apply flag_backed_clearTimer].
Qed.

Lemma flags_backed_reachable (es : list Event) :
  let w := run es initialWorld in
  flag_backed loading is_load w ∧ flag_backed assigning is_assign w.
Proof.
  assert (H : ∀ w, promises_issued w →
                flag_backed loading is_load w →
                flag_backed assigning is_assign w →
                flag_backed loading is_load (run es w) ∧
                flag_backed assigning is_assign (run es w)).
  { induction es as [|e es IH]; intros w Hf Hl Ha; [done|]. cbn.
    apply IH; [by apply promises_issued_step|by apply loading_backed_step|
               by apply assigning_backed_step]. }
  apply H; [apply promises_issued_init|done|done].
Qed.

(** X9: on every page the events can produce, [loading] is true only
    while a recommendation load is outstanding: the spinner cannot stay
    once every load has settled. *)
Theorem spinner_needs_pending_load (es : list Event) :
  let w := run es initialWorld in
  loading (state w) = true → ∃ p, load_pending w p.
Proof.
  intros w Hl. destruct (flags_backed_reachable es) as [H _].
  destruct (H Hl) as (p & k & Hp & ->). by exists p.
Qed.

(** X9 right after the first selection of the session. *)
Lemma spinner_needs_pending_load_witness :
  ∃ p, load_pending
         (run (flights_loaded_events ++ [SelectChange "AI101"]) initialWorld) p.
Proof.
  apply (spinner_needs_pending_load
           (flights_loaded_events ++ [SelectChange "AI101"])).
  vm_compute. reflexivity.
Defined.

(** X10: on every page the events can produce, [assigning] is true
    exactly when an assignment call is outstanding: the two buttons of the
    modal are disabled while the call is awaited and at no other time. *)
Theorem assigning_iff_pending (es : list Event) :
  let w := run es initialWorld in
  assigning (state w) = true ↔ ∃ p, assign_pending w p.
Proof.
  intros w. split.
  - intros Ha. destruct (flags_backed_reachable es) as [_ H].
    destruct (H Ha) as (p & k & Hp & m & f & ->). exists p. by exists m, f.
  - intros [p Hp].
    by apply (pending_assigning _ (single_flight_reachable es) p).
Qed.

(** X10 while the assignment of the session is in flight. *)
Lemma assigning_iff_pending_witness : ∃ p, assign_pending assignment_pending p.
Proof.
  apply (assigning_iff_pending assignment_pending_events).
  vm_compute. reflexivity.
Defined.

(** ** The success notice and its timer *)

Lemma notice_backed_state f (w : World) :
  (∀ s, assignSuccess (f s) = assignSuccess s) →
  notice_backed w → notice_backed (with_state f w).
Proof. intros Hf Hw Hn. cbn in Hn. rewrite Hf in Hn. by apply Hw. Qed.

Lemma notice_backed_none f (w : World) :
  (∀ s, assignSuccess (f s) = None) → notice_backed (with_state f w).
Proof. intros Hf Hn. cbn in Hn. rewrite Hf in Hn. by destruct Hn. Qed.

Lemma notice_backed_await op k (w : World) :
  notice_backed w → notice_backed (await op k w).
Proof. intros Hw. unfold await. by destruct (op (net w)). Qed.

Lemma notice_backed_load (flightNumber : string) (w : World) :
  notice_backed w → notice_backed (loadRecommendations flightNumber w).
Proof.
  intros Hw. unfold loadRecommendations.
  destruct (truthy flightNumber); cbn [negb]; [|done].
  by apply notice_backed_await, notice_backed_state.
Qed.

Lemma notice_backed_scheduled (flight : string) (w : World) :
  notice_backed (setTimeout (CB_reload flight) 3000 w).
Proof.
  intros _. exists (length (timers w)), flight. cbn [setTimeout timers].
  by rewrite list_lookup_middle.
Qed.

Lemma notice_backed_step (e : Event) (w : World) :
  notice_backed w → notice_backed (step e w).
Proof.
  intros Hw. destruct e as [|fl|v|rec| | |p r|p r|p r|i]; cbn [step].
  - by apply notice_backed_await.
  - unfold effect_searchParams. destruct fl as [f|]; [|done].
    destruct (truthy f); [|done].
    by apply notice_backed_load, notice_backed_state.
  - destruct (render (state w)) as [vw|]; [|done].
    destruct (decide (v ∈ options vw)); [|done].
    by apply notice_backed_load, notice_backed_state.
  - destruct (cards <$> render (state w)) as [[|c cs]|];
      first [done|by apply notice_backed_state].
  - destruct (render (state w) ≫= modal) as [mv|]; [|done].
    destruct (cancel_disabled mv);
      first [done|by apply notice_backed_state].
  - destruct (render (state w) ≫= modal) as [mv|]; [|done].
    destruct (confirm_disabled mv); [done|]. unfold confirmAssign.
    destruct (assignModal (state w)) as [m|]; [|done].
    by apply notice_backed_await, notice_backed_state.
  - destruct (awaiting w !! p) as [[| |m f]|]; try done.
    destruct r; first [done|by apply notice_backed_state].
  - destruct (awaiting w !! p) as [[| |m f]|]; try done.
    apply notice_backed_state; [done|].
    destruct r; first [done|by apply notice_backed_state].
  - destruct (awaiting w !! p) as [[| |m f]|]; try done.
    apply notice_backed_state; [done|]. destruct r.
    + apply notice_backed_scheduled.
    + done.
  - destruct (timers w !! i) as [[d [f]]|]; [|done].
    cbn [callback run_callback]. by apply notice_backed_none.
Qed.

(** X11: on every page the events can produce, the success notice is
    shown only while a 3000ms reload timer is scheduled; and any scheduled
    timer, also one left by an earlier assignment, takes the notice away
    when it fires. *)
Theorem notice_has_timer (es : list Event) :
  let w := run es initialWorld in
  (is_Some (assignSuccess (state w)) →
   ∃ i flight, timers w !! i = Some (mkTimer 3000 (CB_reload flight))) ∧
  (∀ i t, timers w !! i = Some t →
     assignSuccess (state (step (TimerFired i) w)) = None).
Proof.
  intros w. split.
  - assert (H : ∀ w0, notice_backed w0 → notice_backed (run es w0)).
    { induction es as [|e es IH]; intros w0 Hw0; [done|].
      cbn. by apply IH, notice_backed_step. }
    apply H. by intros [? ?].
  - intros i t Ht. by rewrite (step_timer_fired _ _ _ Ht); destruct t as [d [f]].
Qed.

(** X11 after the successful assignment of the session. *)
Lemma notice_has_timer_witness :
  ∃ i flight,
    timers assignment_done !! i = Some (mkTimer 3000 (CB_reload flight)).
Proof.
  destruct (notice_has_timer
              (assignment_pending_events ++
               [AssignSettled 2 (Fulfilled (mkResponse "ok"))])) as [H _].
  apply H. vm_compute. eexists. reflexivity.
Defined.

(** ** What the page sends *)

Lemma truthy_true (s : string) : truthy s = true → s ≠ "".
Proof. by destruct s. Qed.

Lemma load_sends (flightNumber : string) (w : World) :
  ∃ extra, net (loadRecommendations flightNumber w) = net w ++ extra ∧
           (length extra ≤ 1)%nat ∧ Forall page_request extra.
Proof.
  rewrite loadRecommendations_net.
  destruct (truthy flightNumber) eqn:Ht.
  - eexists. split; [done|]. split; [cbn; lia|].
    apply Forall_singleton. right. left. exists flightNumber.
    split; [by apply truthy_true|done].
  - exists []. rewrite app_nil_r. split; [done|]. split; [cbn; lia|done].
Qed.

Lemma step_sends (e : Event) (w : World) :
  ∃ extra, net (step e w) = net w ++ extra ∧
           (length extra ≤ 1)%nat ∧ Forall page_request extra.
Proof.
  assert (Hnone : ∃ extra, net w = net w ++ extra ∧
                           (length extra ≤ 1)%nat ∧ Forall page_request extra).
  { exists []. rewrite app_nil_r. split; [done|]. split; [cbn; lia|done]. }
  destruct e as [|fl|v|rec| | |p r|p r|p r|i]; cbn [step].
  - exists [flights_request]. split; [done|]. split; [cbn; lia|].
    apply Forall_singleton. by left.
  - unfold effect_searchParams. destruct fl as [f|]; [|done].
    destruct (truthy f); [|done]. apply (load_sends f (setSelectedFlight f w)).
  - destruct (render (state w)) as [vw|]; [|done].
    destruct (decide (v ∈ options vw)); [|done].
    apply (load_sends v (setSelectedFlight v w)).
  - by destruct (cards <$> render (state w)) as [[|c cs]|].
  - destruct (render (state w) ≫= modal) as [mv|]; [|done].
    by destruct (cancel_disabled mv).
  - destruct (render (state w) ≫= modal) as [mv|]; [|done].
    destruct (confirm_disabled mv); [done|]. unfold confirmAssign.
    destruct (assignModal (state w)) as [m|]; [|done].
    exists [assign_request (emp_id m) (selectedFlight (state w))].
    split; [done|]. split; [cbn; lia|].
    apply Forall_singleton. right. right. by eexists _, _.
  - destruct (awaiting w !! p) as [[| |m f]|]; try done. by destruct r.
  - destruct (awaiting w !! p) as [[| |m f]|]; try done. by destruct r.
  - destruct (awaiting w !! p) as [[| |m f]|]; try done. by destruct r.
  - destruct (timers w !! i) as [[d [f]]|]; [|done].
    cbn [callback run_callback]. apply (load_sends f (clearTimer i w)).
Qed.

(** X12: one run of an effect, of a handler, of the continuation of a
    settled call or of the timer callback sends at most one request and
    leaves what was sent before as it was.  The mount of the page runs both
    effects: it sends [GET /flights] and, when the address carries a
    non-empty [flight] parameter, the one fetch for that flight, so two
    requests at most. *)
Theorem one_request_per_event (w : World) :
  (∀ e, ∃ extra, net (step e w) = net w ++ extra ∧ (length extra ≤ 1)%nat) ∧
  (∀ flightParam,
     let w' := run [Mounted; SearchParams flightParam] w in
     net w' =
       net w ++ flights_request ::
         match flightParam with
         | Some f => if truthy f then [recommendations_request f] else []
         | None => []
         end ∧
     (length (net w') ≤ length (net w) + 2)%nat).
Proof.
  split.
  - intros e. destruct (step_sends e w) as (extra & H & Hl & _).
    by exists extra.
  - intros fl w'. subst w'. cbn [run foldl step].
    unfold effect_searchParams.
    assert (Hmount : net (loadFlights w) = net w ++ [flights_request])
      by done.
    destruct fl as [f|]; [destruct (truthy f) eqn:Ht|].
    + cbn [handleFlightChange]. rewrite loadRecommendations_net, Ht.
      cbn [setSelectedFlight with_state net]. rewrite Hmount.
      rewrite <- app_assoc. split; [done|].
      rewrite !length_app. cbn. lia.
    + rewrite Hmount. split; [done|]. rewrite length_app. cbn. lia.
    + rewrite Hmount. split; [done|]. rewrite length_app. cbn. lia.
Qed.

(** X12 for a mount with a flight parameter: two requests. *)
Lemma one_request_per_event_witness :
  net (run [Mounted; SearchParams (Some "ZZ999")] initialWorld) =
    [flights_request; recommendations_request "ZZ999"].
Proof.
  destruct (one_request_per_event initialWorld) as [_ H].
  destruct (H (Some "ZZ999")) as [Hn _]. exact Hn.
Defined.

(** *** Requests and operations *)

Lemma string_length_app (s t : string) :
  String.length (s +:+ t) = String.length s + String.length t.
Proof.
  induction s as [|a s IH]; [done|].
  change (S (String.length (s +:+ t)) =
          S (String.length s + String.length t)).
  by rewrite IH.
Qed.

Lemma string_app_inj_r (s1 s2 t : string) : s1 +:+ t = s2 +:+ t → s1 = s2.
Proof.
  revert s2. induction s1 as [|a s1 IH]; intros [|b s2] H.
  - done.
  - apply (f_equal String.length) in H.
    rewrite !string_length_app in H. cbn in H. lia.
  - apply (f_equal String.length) in H.
    rewrite !string_length_app in H. cbn in H. lia.
  - change (String a (s1 +:+ t) = String b (s2 +:+ t)) in H.
    injection H as -> H. f_equal. by apply IH.
Qed.

Lemma call_request (op : ApiOp) (n : Net) :
  call op n = (n ++ [request_of op], length n).
Proof. by destruct op. Qed.

Lemma request_of_inj (op op' : ApiOp) :
  request_of op = request_of op' → op = op'.
Proof.
  destruct op, op'; intros H; vm_compute in H; simplify_eq; try done.
  match goal with
  | H : _ = _ |- _ => apply (string_app_inj_r _ _ "/assign") in H as ->
  end.
  done.
Qed.

(** X13: the request as a whole (method, address and body) identifies
    the operation and its arguments: two calls of the client hand axios the
    same request only if they are the same operation on the same arguments.
    The address alone does not, since nothing is escaped: two assignments of
    the same crew member share theirs, and so do [getCrewById] of an id
    ending in [/assign] and the assignment of the id before it.  These are
    the only two ways for two operations to share an address. *)
Theorem api_request_identifies_operation (op op' : ApiOp) (n : Net) :
  (call op n = call op' n ↔ op = op') ∧
  (url (request_of op) = url (request_of op') ↔
     op = op' ∨
     (∃ e f f', op = AssignCrewToFlight e f ∧ op' = AssignCrewToFlight e f') ∨
     (∃ e f, op = GetCrewById (e +:+ "/assign") ∧
             op' = AssignCrewToFlight e f) ∨
     (∃ e f, op = AssignCrewToFlight e f ∧
             op' = GetCrewById (e +:+ "/assign"))).
Proof.
  split.
  - split; [|by intros ->]. rewrite !call_request. intros [= H].
    apply app_inv_head in H. injection H as H. by apply request_of_inj.
  - split.
    + destruct op as [| |f1| |e1|f1|e1 f1|], op' as [| |f2| |e2|f2|e2 f2|];
        intros H; vm_compute in H; simplify_eq; try (by left).
      * right. right. left. by exists e2, f2.
      * right. right. right. by exists e1, f1.
      * match goal with
        | H : _ = _ |- _ => apply (string_app_inj_r _ _ "/assign") in H as ->
        end.
        right. left. by exists e2, f1, f2.
    + intros [->|[(e & f & f' & -> & ->)|[(e & f & -> & ->)|(e & f & -> & ->)]]];
        done.
Qed.

(** X13 for the two operations that share the [/crew/] prefix: the same
    address, different requests. *)
Lemma api_request_identifies_operation_witness :
  url (request_of (GetCrewById "E1/assign")) =
    url (request_of (AssignCrewToFlight "E1" "AI101")) ∧
  call (GetCrewById "E1/assign") [] ≠ call (AssignCrewToFlight "E1" "AI101") [].
Proof.
  destruct (api_request_identifies_operation
              (GetCrewById "E1/assign") (AssignCrewToFlight "E1" "AI101") [])
    as [Hcall Hurl].
  split.
  - apply Hurl. right. right. left. by exists "E1", "AI101".
  - intros H. apply Hcall in H. discriminate H.
Defined.

Lemma page_request_op (r : Request) :
  page_request r →
  ∃ op, r = request_of op ∧
        (op = GetAllFlights ∨
         (∃ f, f ≠ "" ∧ op = GetRecommendations f) ∨
         (∃ e f, op = AssignCrewToFlight e f)).
Proof.
  intros [->|[(f & Hf & ->)|(e & f & ->)]].
  - exists GetAllFlights. split; [done|by left].
  - exists (GetRecommendations f). split; [done|]. right. left. by exists f.
  - exists (AssignCrewToFlight e f). split; [done|]. right. right.
    by exists e, f.
Qed.

(** X14: whatever the events, the page only ever sends the flight list
    request, recommendation requests for a non-empty flight number and
    assignment requests.  Of the eight operations of the client it uses
    those three: no dashboard, single-flight, crew or health request is ever
    sent, and no recommendation request for the empty flight number. *)
Theorem page_sends_only_its_requests (es : list Event) :
  let w := run es initialWorld in
  Forall page_request (net w) ∧
  ∀ op, request_of op ∈ net w →
    op = GetAllFlights ∨
    (∃ f, f ≠ "" ∧ op = GetRecommendations f) ∨
    (∃ e f, op = AssignCrewToFlight e f).
Proof.
  intros w.
  assert (H : ∀ w0, Forall page_request (net w0) →
                Forall page_request (net (run es w0))).
  { induction es as [|e es IH]; intros w0 Hw0; [done|]. cbn. apply IH.
    destruct (step_sends e w0) as (extra & -> & _ & Hextra).
    by apply Forall_app. }
  assert (Hw : Forall page_request (net w)) by (by apply H).
  split; [done|]. intros op Hin.
  rewrite Forall_forall in Hw. apply Hw in Hin.
  apply page_request_op in Hin as (op' & Heq & Hop').
  by apply request_of_inj in Heq as ->.
Qed.

(** X14 on the session: the log of the finished assignment holds the
    flight list request and nothing of the dashboard. *)
Lemma page_sends_only_its_requests_witness :
  request_of GetAllFlights ∈ net assignment_done ∧
  request_of GetDashboardStats ∉ net assignment_done.
Proof.
  destruct (page_sends_only_its_requests
              (assignment_pending_events ++
               [AssignSettled 2 (Fulfilled (mkResponse "ok"))])) as [_ H].
  split.
  - vm_compute. apply list_elem_of_here.
  - intros Hin. apply H in Hin as [Hop|[(f & _ & Hop)|(e & f & Hop)]];
      discriminate Hop.
Defined.


(** X2 for a link to a flight that is not in the list. *)
Lemma searchParams_effect_witness :
  let w' := step (SearchParams (Some "ZZ999")) initialWorld in
  selectedFlight (state w') = "ZZ999" ∧
  net w' = [recommendations_request "ZZ999"].
Proof.
  intros w'.
  destruct (searchParams_effect initialWorld) as (H & _).
  assert (Hne : "ZZ999" ≠ "") by (intro Heq; discriminate Heq).
  destruct (H "ZZ999" Hne) as (_ & Hs & _ & Hn & _).
  split; [exact Hs|exact Hn].
Defined.
